(** * Session and message relay of the chat server

    A shallow embedding of the Express routes of [server/index.js]
    (sessions, share links and the message relay to the text-generation
    provider), with the Mongoose collection as an explicit list of
    documents and every route written in a small state-and-exception
    monad that also records which repository and provider calls were made. *)

From Stdlib Require Import List Bool Arith NArith ZArith Lia String Ascii.
From Stdlib Require Import DecimalString Permutation Sorted.
From Stdlib.Strings Require Import Byte.
Import ListNotations.

Set Implicit Arguments.

(** ** JavaScript strings

    A JavaScript string is a sequence of UTF-16 code units; [length],
    [slice], [startsWith], [includes] and [split] all count code units. *)

Definition str := list N.

Definition lit (s : string) : str :=
  List.map N_of_ascii (list_ascii_of_string s).

Fixpoint str_eqb (a b : str) : bool :=
  match a, b with
  | [], [] => true
  | x :: a', y :: b' => N.eqb x y && str_eqb a' b'
  | _, _ => false
  end.

(** [!s] for a string: only the empty string is falsy. *)
Definition is_empty (s : str) : bool :=
  match s with [] => true | _ :: _ => false end.

(** [v || d] for a string-or-undefined [v]. *)
Definition or_default (v : option str) (d : str) : str :=
  match v with
  | None => d
  | Some s => if is_empty s then d else s
  end.

(** [s.startsWith(p)] *)
Fixpoint startsWith (s p : str) : bool :=
  match p, s with
  | [], _ => true
  | x :: p', y :: s' => N.eqb x y && startsWith s' p'
  | _ :: _, [] => false
  end.

(** [s.includes(sub)] *)
Fixpoint includes (s sub : str) : bool :=
  startsWith s sub ||
  match s with
  | [] => false
  | _ :: s' => includes s' sub
  end.

(** [s.slice(0, n)] *)
Definition slice0 (s : str) (n : nat) : str := firstn n s.

(** [s.split(sep)] for a one-unit separator: the pieces between the
    occurrences of [sep], in order. *)
Fixpoint split_acc (sep : N) (cur : str) (s : str) : list str :=
  match s with
  | [] => [rev cur]
  | c :: s' =>
    if N.eqb c sep then rev cur :: split_acc sep [] s'
    else split_acc sep (c :: cur) s'
  end.

Definition split (sep : N) (s : str) : list str := split_acc sep [] s.

Definition space : N := 32%N.

(** ** [Buffer.toString('hex')] *)

Definition hexdigit (n : N) : N :=
  if (n <? 10)%N then (48 + n)%N else (87 + n)%N.

Definition hex_of_byte (b : byte) : str :=
  let n := Byte.to_N b in [hexdigit (n / 16)%N; hexdigit (n mod 16)%N].

Definition toString_hex (bs : list byte) : str := flat_map hex_of_byte bs.



(** ** Documents of the [ChatSession] collection *)

Inductive Role := user | assistant.

Record Message := { role : Role; content : str }.

(** Modelled from the spec: the schema [models/ChatSession.js] is not among
    the sources; the fields are the ones the routes read and write
    ([_id], [owner], [title], [messages], [shareToken], [lastUpdated]), an
    ObjectId being its 96-bit value and [owner] the string form that the
    routes compare. The per-message timestamp is never written by a route
    and is left out. *)
Record Session := {
  _id : N;
  owner : str;
  title : str;
  messages : list Message;
  shareToken : option str;
  lastUpdated : Z
}.

(** The update documents the routes pass to [findByIdAndUpdate]. *)
Inductive Update :=
| PushMessages (ms : list Message) (at_ : Z)   (* { $push: { messages: [..] }, lastUpdated } *)
| SetTitle (t : str)                           (* { title } *)
| SetShareToken (t : str).                     (* { shareToken } *)

Definition apply_update (u : Update) (s : Session) : Session :=
  match u with
  | PushMessages ms t =>
    {| _id := _id s; owner := owner s; title := title s;
       messages := messages s ++ ms; shareToken := shareToken s;
       lastUpdated := t |}
  | SetTitle t =>
    {| _id := _id s; owner := owner s; title := t;
       messages := messages s; shareToken := shareToken s;
       lastUpdated := lastUpdated s |}
  | SetShareToken t =>
    {| _id := _id s; owner := owner s; title := title s;
       messages := messages s; shareToken := Some t;
       lastUpdated := lastUpdated s |}
  end.

(** ** Thrown errors *)

Record Exn := { name : str; message : str }.

(** [String(err)] *)
Definition String_of (e : Exn) : str := name e ++ lit ": " ++ message e.

(** ** The provider *)

Record FetchRequest := {
  endpoint : str;
  x_goog_api_key : str;
  promptText : str
}.

(** What the routes read of the provider's JSON answer:
    [data?.candidates?.[0]?.content?.parts?.[0]?.text] and
    [data?.promptFeedback?.blockReason], each a string of the provider's
    schema or [undefined] when a link of the chain is absent. *)
Record GeminiData := {
  candidateText : option str;
  blockReason : option str
}.

Record FetchResponse := {
  status : Z;
  bodyText : str;                (* await response.text() *)
  bodyJson : Exn + GeminiData    (* await response.json(), which may throw *)
}.

Definition ok (r : FetchResponse) : bool :=
  (200 <=? status r)%Z && (status r <? 300)%Z.

Inductive FetchResult :=
| FetchRejects (e : Exn)
| FetchResolves (r : FetchResponse).

(** ** What a request sees of its environment *)

Record Env := {
  GEMINI_API_KEY : option str;      (* process.env.GEMINI_API_KEY *)
  GEMINI_MODEL : option str;        (* process.env.GEMINI_MODEL *)
  APP_URL : option str;             (* process.env.APP_URL *)
  fetch : FetchRequest -> FetchResult;
  now : Z;                          (* new Date() *)
  randomBytes : nat -> list byte;   (* crypto.randomBytes *)
  newObjectId : N                   (* the _id the driver generates *)
}.

(** ** Responses *)

Inductive Body :=
| BError (error : str)
| BSession (session : Session)
| BMessage (msg : str)
| BShare (token shareUrl : str)
| BReply (reply : str)
| BUpstream (error : str) (upstreamStatus : Z) (upstreamBody : str)
            (hint : option str)
| BMalformed (error : str) (data : GeminiData).

Record Response := { code : Z; body : Body }.

Definition json (c : Z) (b : Body) : Response := {| code := c; body := b |}.

(** ** The world: the collection and the calls made so far *)

Inductive Event :=
| EvCreate (id : N)
| EvFindById (id : str)
| EvFindOne (token : str)
| EvFindByIdAndUpdate (id : str) (u : Update)
| EvFindByIdAndDelete (id : str)
| EvFetch (rq : FetchRequest).

Record World := { db : list Session; trace : list Event }.

Inductive Outcome (A : Type) :=
| Ret (a : A)
| Throw (e : Exn).

Arguments Ret {A} a.
Arguments Throw {A} e.

Definition M (A : Type) := World -> Outcome A * World.

Definition ret {A} (a : A) : M A := fun w => (Ret a, w).

Definition throw {A} (e : Exn) : M A := fun w => (Throw e, w).

Definition bind {A B} (m : M A) (k : A -> M B) : M B :=
  fun w =>
    match m w with
    | (Ret a, w') => k a w'
    | (Throw e, w') => (Throw e, w')
    end.

Definition try_catch {A} (m : M A) (h : Exn -> M A) : M A :=
  fun w =>
    match m w with
    | (Ret a, w') => (Ret a, w')
    | (Throw e, w') => h e w'
    end.

Definition log (e : Event) : M unit :=
  fun w => (Ret tt, {| db := db w; trace := trace w ++ [e] |}).

Definition get_db : M (list Session) := fun w => (Ret (db w), w).

Definition put_db (d : list Session) : M unit :=
  fun w => (Ret tt, {| db := d; trace := trace w |}).

Declare Scope monad_scope.
Delimit Scope monad_scope with monad.
Notation "x <- m ;; k" := (bind m (fun x => k))
  (at level 61, m at next level, right associativity) : monad_scope.
Notation "m ;;; k" := (bind m (fun _ => k))
  (at level 61, right associativity) : monad_scope.
Open Scope monad_scope.

(** ** The repository (Mongoose model [ChatSession])

    The collection is the list of its documents in insertion order;
    [findOne] answers the first match. The store itself is taken to be
    reachable: the only exceptions modelled are the ones that depend on the
    arguments (a failed cast of the id, a duplicate [_id]). *)

Definition has_id (id : N) (s : Session) : bool := N.eqb (_id s) id.

Definition carries (token : str) (s : Session) : bool :=
  match shareToken s with
  | Some t => str_eqb t token
  | None => false
  end.

Definition lookup (id : N) (d : list Session) : option Session :=
  find (has_id id) d.

Fixpoint update_first (id : N) (f : Session -> Session) (d : list Session)
  : list Session :=
  match d with
  | [] => []
  | s :: d' =>
    if has_id id s then f s :: d' else s :: update_first id f d'
  end.

Fixpoint remove_first (id : N) (d : list Session) : list Session :=
  match d with
  | [] => []
  | s :: d' => if has_id id s then d' else s :: remove_first id d'
  end.

Definition E11000 : Exn :=
  {| name := lit "MongoServerError";
     message := lit "E11000 duplicate key error" |}.

Definition TypeError_null : Exn :=
  {| name := lit "TypeError";
     message := lit "Cannot read properties of null (reading 'messages')" |}.

Definition derive_title (input : str) : str :=
  slice0 input 50 ++ (if (50 <? List.length input)%nat then lit "..." else []).

Definition echo_reply (input : str) : str :=
  lit "Echo (dev): " ++ input ++ lit " " ++ [8212%N] ++
  lit " set GEMINI_API_KEY to use real Gemini.".

Definition block_notice (reason : str) : str :=
  lit "Your prompt was blocked due to: " ++ reason ++ lit ".".

Definition system_instruction : str :=
  lit "You are a helpful assistant. Always respond in common, unformatted, plain text only. Do not use Markdown, symbols like asterisks (*), or hashtags (#) for formatting."
  ++ [10%N; 10%N].

Definition exchange (input reply : str) : list Message :=
  [ {| role := user; content := input |};
    {| role := assistant; content := reply |} ].

Definition upstream_hint (model : str) (st : Z) (errorBody : str)
  : option str :=
  if (st =? 404)%Z then
    Some (lit "404 Not Found. Check the Model Name (" ++ model ++
          lit ") and API version (v1beta). Try regenerating your API key.")
  else if (st =? 403)%Z then
    Some (lit "403 Forbidden. Your API key may be invalid, or billing/quota limits may be reached.")
  else if (st =? 400)%Z && includes errorBody (lit "API_KEY_INVALID") then
    Some (lit "400 Bad Request / API_KEY_INVALID. The API key is likely incorrect or expired.")
  else None.

Record Claims := { sub : str; username : str }.

Section Server.

(** The libraries the routes call into: [mongoose.Types.ObjectId.isValid],
    the cast of a string to an ObjectId that every [findById*] performs
    (it throws a CastError on a string that is no ObjectId), and
    [jwt.verify] under the server's secret. *)
Variable ObjectId_isValid : str -> bool.
Variable castObjectId : str -> Exn + N.
Variable jwt_verify : str -> option Claims.

Definition cast (sessionId : str) : M N :=
  match castObjectId sessionId with
  | inl e => throw e
  | inr id => ret id
  end.

Definition findById (sessionId : str) : M (option Session) :=
  log (EvFindById sessionId) ;;;
  id <- cast sessionId ;;
  d <- get_db ;;
  ret (lookup id d).

Definition findByIdAndUpdate (sessionId : str) (u : Update) : M unit :=
  log (EvFindByIdAndUpdate sessionId u) ;;;
  id <- cast sessionId ;;
  d <- get_db ;;
  put_db (update_first id (apply_update u) d).

Definition findByIdAndDelete (sessionId : str) : M unit :=
  log (EvFindByIdAndDelete sessionId) ;;;
  id <- cast sessionId ;;
  d <- get_db ;;
  put_db (remove_first id d).

Definition findOne_shareToken (token : str) : M (option Session) :=
  log (EvFindOne token) ;;;
  d <- get_db ;;
  ret (find (carries token) d).

(** [ChatSession.create({ title, owner, messages: [] })]: the driver
    supplies the [_id], the collection refuses a duplicate one, and
    [lastUpdated] takes its schema default, the time of creation. *)
Definition create (env : Env) (title_ owner_ : str) : M Session :=
  let s := {| _id := newObjectId env; owner := owner_; title := title_;
              messages := []; shareToken := None;
              lastUpdated := now env |} in
  log (EvCreate (_id s)) ;;;
  d <- get_db ;;
  match lookup (_id s) d with
  | Some _ => throw E11000
  | None => put_db (d ++ [s]) ;;; ret s
  end.

(** [fetch(endpoint, ...)] *)
Definition do_fetch (env : Env) (rq : FetchRequest) : M FetchResponse :=
  log (EvFetch rq) ;;;
  match fetch env rq with
  | FetchRejects e => throw e
  | FetchResolves r => ret r
  end.

(** [await response.json()] *)
Definition response_json (r : FetchResponse) : M GeminiData :=
  match bodyJson r with
  | inl e => throw e
  | inr data => ret data
  end.

(** ** Routes *)

Definition authMiddleware (authorization : option str)
  (next : str -> M Response) : M Response :=
  match authorization with
  | None =>
    ret (json 401 (BError (lit "Missing or invalid Authorization header")))
  | Some auth =>
    if is_empty auth || negb (startsWith auth (lit "Bearer ")) then
      ret (json 401 (BError (lit "Missing or invalid Authorization header")))
    else
      match nth_error (split space auth) 1 with
      | Some token =>
        match jwt_verify token with
        | Some payload => next (sub payload)
        | None => ret (json 401 (BError (lit "Invalid token")))
        end
      | None => ret (json 401 (BError (lit "Invalid token")))
      end
  end.

(** [POST /api/chat/sessions] *)
Definition createSession (env : Env) (userId : str) (title_ : option str)
  : M Response :=
  try_catch
    (session <- create env (or_default title_ (lit "New Chat")) userId ;;
     ret (json 200 (BSession session)))
    (fun err =>
       ret (json 500 (BError (lit "Error creating chat session: " ++
                              message err)))).

(** [GET /api/chat/sessions/:sessionId] *)
Definition getSession (sessionId userId : str) : M Response :=
  try_catch
    (session <- findById sessionId ;;
     match session with
     | None => ret (json 404 (BError (lit "Chat session not found")))
     | Some session =>
       if negb (str_eqb (owner session) userId) then
         ret (json 403 (BError (lit "Forbidden")))
       else ret (json 200 (BSession session))
     end)
    (fun _ => ret (json 500 (BError (lit "Error fetching chat session")))).

(** [DELETE /api/chat/sessions/:sessionId] *)
Definition deleteSession (sessionId userId : str) : M Response :=
  try_catch
    (session <- findById sessionId ;;
     match session with
     | None => ret (json 404 (BError (lit "Chat session not found")))
     | Some session =>
       if negb (str_eqb (owner session) userId) then
         ret (json 403 (BError (lit "Forbidden")))
       else
         findByIdAndDelete sessionId ;;;
         ret (json 200 (BMessage (lit "Chat session deleted successfully")))
     end)
    (fun _ => ret (json 500 (BError (lit "Error deleting chat session")))).

(** [POST /api/chat/sessions/:sessionId/share]; [protocol] and [host] are
    [req.protocol] and [req.get('host')]. *)
Definition issueShareToken (env : Env) (protocol host : str)
  (sessionId userId : str) : M Response :=
  try_catch
    (session <- findById sessionId ;;
     match session with
     | None => ret (json 404 (BError (lit "Chat session not found")))
     | Some session =>
       if negb (str_eqb (owner session) userId) then
         ret (json 403 (BError (lit "Forbidden")))
       else
         let shareToken_ := toString_hex (randomBytes env 16) in
         findByIdAndUpdate sessionId (SetShareToken shareToken_) ;;;
         let host_ := or_default (APP_URL env) (protocol ++ lit "://" ++ host) in
         let shareUrl := host_ ++ lit "/share/" ++ shareToken_ in
         ret (json 200 (BShare shareToken_ shareUrl))
     end)
    (fun _ => ret (json 500 (BError (lit "Error generating share token")))).

(** [GET /api/chat/share/:token], registered without [authMiddleware]. *)
Definition getByShareToken (token : str) : M Response :=
  try_catch
    (session <- findOne_shareToken token ;;
     match session with
     | None => ret (json 404 (BError (lit "Shared chat not found")))
     | Some session => ret (json 200 (BSession session))
     end)
    (fun _ => ret (json 500 (BError (lit "Error fetching shared chat")))).

(** A string-or-undefined value in a condition: the string when truthy. *)
Definition truthy (v : option str) : option str :=
  match v with
  | Some (c :: s) => Some (c :: s)
  | _ => None
  end.

(** [process.env.GEMINI_MODEL || 'gemini-2.5-flash'] *)
Definition MODEL_NAME (env : Env) : str :=
  or_default (GEMINI_MODEL env) (lit "gemini-2.5-flash").

(** The request sent to the provider: the utterance behind the fixed
    plain-text instruction, the key in the [x-goog-api-key] header. *)
Definition provider_request (env : Env) (apiKey input : str) : FetchRequest :=
  {| endpoint :=
       lit "https://generativelanguage.googleapis.com/v1beta/models/" ++
       MODEL_NAME env ++ lit ":generateContent";
     x_goog_api_key := apiKey;
     promptText := system_instruction ++ input |}.

(** The body of the relay's [try]: call the provider, classify the answer,
    persist the exchange. *)
Definition relay_provider (env : Env) (apiKey sessionId input : str)
  : M Response :=
  response <- do_fetch env (provider_request env apiKey input) ;;
  if negb (ok response) then
    let errorBody := bodyText response in
    let hint := upstream_hint (MODEL_NAME env) (status response) errorBody in
    ret (json 502 (BUpstream (lit "Upstream API error") (status response)
                             errorBody hint))
  else
    data <- response_json response ;;
    match truthy (candidateText data) with
    | Some reply =>
      findByIdAndUpdate sessionId
        (PushMessages (exchange input reply) (now env)) ;;;
      session <- findById sessionId ;;
      match session with
      | None => throw TypeError_null
      | Some session =>
        (if (List.length (messages session) =? 2)%nat then
           findByIdAndUpdate sessionId (SetTitle (derive_title input))
         else ret tt) ;;;
        ret (json 200 (BReply reply))
      end
    | None =>
      match truthy (blockReason data) with
      | Some reason =>
        let reply := block_notice reason in
        findByIdAndUpdate sessionId
          (PushMessages (exchange input reply) (now env)) ;;;
        ret (json 200 (BReply reply))
      | None =>
        ret (json 502 (BMalformed
          (lit "The model returned a response, but I couldn't find the text or reason for failure.")
          data))
      end
    end.

(** [POST /api/chat/sessions/:sessionId/messages] *)
Definition relay (env : Env) (sessionId userId input : str) : M Response :=
  if is_empty input then ret (json 400 (BError (lit "Missing input")))
  else if is_empty sessionId then
    ret (json 400 (BError (lit "Missing session ID")))
  else
    verified <-
      try_catch
        (if negb (ObjectId_isValid sessionId) then
           ret (inl (json 400 (BError (lit "Invalid session ID format"))))
         else
           session <- findById sessionId ;;
           match session with
           | None => ret (inl (json 404 (BError (lit "Chat session not found"))))
           | Some session => ret (inr session)
           end)
        (fun err =>
           ret (inl (json 500 (BError (lit "Error verifying chat session: " ++
                                       message err))))) ;;
    match verified with
    | inl response => ret response
    | inr session =>
      if negb (str_eqb (owner session) userId) then
        ret (json 403 (BError (lit "Forbidden")))
      else
        match truthy (GEMINI_API_KEY env) with
        | None => ret (json 200 (BReply (echo_reply input)))
        | Some apiKey =>
          try_catch (relay_provider env apiKey sessionId input)
                    (fun err => ret (json 500 (BError (String_of err))))
        end
    end.

(** The routes as registered: all but the share link sit behind
    [authMiddleware]. *)
Inductive Route :=
| POST_sessions (title_ : option str)
| GET_session (sessionId : str)
| DELETE_session (sessionId : str)
| POST_share (protocol host sessionId : str)
| GET_share (token : str)
| POST_messages (sessionId input : str).

Definition handle (env : Env) (authorization : option str) (r : Route)
  : M Response :=
  match r with
  | POST_sessions t =>
    authMiddleware authorization (fun userId => createSession env userId t)
  | GET_session sid =>
    authMiddleware authorization (fun userId => getSession sid userId)
  | DELETE_session sid =>
    authMiddleware authorization (fun userId => deleteSession sid userId)
  | POST_share p h sid =>
    authMiddleware authorization
      (fun userId => issueShareToken env p h sid userId)
  | GET_share token => getByShareToken token
  | POST_messages sid input =>
    authMiddleware authorization (fun userId => relay env sid userId input)
  end.

(** Requests served one after the other, each with its own environment. *)
Record Request := {
  req_env : Env;
  req_authorization : option str;
  req_route : Route
}.

Fixpoint serve (rs : list Request) (w : World) : World :=
  match rs with
  | [] => w
  | r :: rs' =>
    serve rs' (snd (handle (req_env r) (req_authorization r) (req_route r) w))
  end.

End Server.

Definition empty_world : World := {| db := []; trace := [] |}.

(** ** A concrete instance of the libraries

    ObjectIds written as 24 hexadecimal digits (accepted by every version
    of the driver), and a verifier that reads the user id off the token. *)

Definition hexval (c : N) : option N :=
  if (48 <=? c)%N && (c <=? 57)%N then Some (c - 48)%N
  else if (97 <=? c)%N && (c <=? 102)%N then Some (c - 87)%N
  else if (65 <=? c)%N && (c <=? 70)%N then Some (c - 55)%N
  else None.

Fixpoint parse_hex (acc : N) (s : str) : option N :=
  match s with
  | [] => Some acc
  | c :: s' =>
    match hexval c with
    | Some v => parse_hex (acc * 16 + v)%N s'
    | None => None
    end
  end.

Definition isValid24 (s : str) : bool :=
  (List.length s =? 24)%nat &&
  match parse_hex 0 s with Some _ => true | None => false end.

Definition CastError (s : str) : Exn :=
  {| name := lit "CastError";
     message := lit "Cast to ObjectId failed for value " ++ s |}.

Definition cast24 (s : str) : Exn + N :=
  if (List.length s =? 24)%nat then
    match parse_hex 0 s with
    | Some id => inr id
    | None => inl (CastError s)
    end
  else inl (CastError s).

Definition verify_plain (token : str) : option Claims :=
  if is_empty token then None
  else Some {| sub := token; username := token |}.

Module Demo.

Definition sid : str := lit "64b7f0c2a1d3e4f5a6b7c8d9".

Definition oid : N := Eval vm_compute in
  match parse_hex 0 sid with Some n => n | None => 0%N end.

Definition alice : str := lit "alice".
Definition bob : str := lit "bob".

Definition answer (r : FetchResponse) : FetchRequest -> FetchResult :=
  fun _ => FetchResolves r.

Definition env0 : Env :=
  {| GEMINI_API_KEY := None; GEMINI_MODEL := None;
     APP_URL := Some (lit "http://localhost:3000");
     fetch := fun _ => FetchRejects {| name := lit "FetchError";
                                       message := lit "no network" |};
     now := 1000%Z;
     randomBytes := fun n => repeat x2a n;
     newObjectId := oid |}.

Definition with_provider (r : FetchResponse) (t : Z) : Env :=
  {| GEMINI_API_KEY := Some (lit "key"); GEMINI_MODEL := None;
     APP_URL := Some (lit "http://localhost:3000");
     fetch := answer r;
     now := t;
     randomBytes := fun n => repeat x2a n;
     newObjectId := oid |}.

Definition with_random (b : byte) : Env :=
  {| GEMINI_API_KEY := None; GEMINI_MODEL := None;
     APP_URL := Some (lit "http://localhost:3000");
     fetch := fetch env0;
     now := 1000%Z;
     randomBytes := fun n => repeat b n;
     newObjectId := oid |}.

Definition replies (text : str) : FetchResponse :=
  {| status := 200; bodyText := [];
     bodyJson := inr {| candidateText := Some text; blockReason := None |} |}.

Definition blocks (reason : str) : FetchResponse :=
  {| status := 200; bodyText := [];
     bodyJson := inr {| candidateText := None; blockReason := Some reason |} |}.

Definition fails (st : Z) (text : str) : FetchResponse :=
  {| status := st; bodyText := text;
     bodyJson := inl {| name := lit "SyntaxError";
                        message := lit "Unexpected token" |} |}.

Definition silent : FetchResponse :=
  {| status := 200; bodyText := [];
     bodyJson := inr {| candidateText := None; blockReason := None |} |}.

(** The store right after [alice] created her first session. *)
Definition fresh_session : Session :=
  {| _id := oid; owner := alice; title := lit "New Chat"; messages := [];
     shareToken := None; lastUpdated := 1000 |}.

Definition w1 : World := {| db := [fresh_session]; trace := [] |}.

Definition denied : Env := with_provider (fails 403 (lit "quota")) 2000.
Definition mute : Env := with_provider silent 2000.
Definition answering : Env := with_provider (replies (lit "Hi")) 2000.
Definition declining : Env := with_provider (blocks (lit "SAFETY")) 2000.

Definition notice : str := lit "Your prompt was blocked due to: SAFETY.".

Definition base : str := lit "http://localhost:3000".
Definition token1 : str := toString_hex (randomBytes (with_random x2a) 16).

Definition bearer : option str := Some (lit "Bearer alice").

(** Sixty times the letter a. *)
Definition long : str := repeat 97%N 60.

(** The store after [alice]'s request to create a session, and after her
    request for a share link. *)
Definition created : World :=
  snd (createSession env0 alice None empty_world).

Definition shared : World :=
  serve isValid24 cast24 verify_plain
    [ {| req_env := env0; req_authorization := bearer;
         req_route := POST_sessions None |};
      {| req_env := env0; req_authorization := bearer;
         req_route := POST_share (lit "http") (lit "localhost:5000") sid |} ]
    empty_world.

(** The share token drawn under [env0]. *)
Definition token0 : str := toString_hex (randomBytes env0 16).

(** Length of the history and title of each session after a relay. *)
Definition titles (env : Env) (input : str) : list (nat * str) :=
  List.map (fun s => (List.length (messages s), title s))
    (db (snd (relay isValid24 cast24 env sid alice input w1))).

End Demo.

(** ** Vocabulary of the properties *)

(** An utterance made of white space only (space, tab, line feed,
    carriage return). *)
Definition whitespace_only (s : str) : bool :=
  forallb (fun c => N.eqb c 32 || N.eqb c 9 || N.eqb c 10 || N.eqb c 13) s.

(** What a client reads under the key [owner] of a response. *)
Definition revealed_owner (r : Response) : option str :=
  match body r with
  | BSession s => Some (owner s)
  | _ => None
  end.

(** What a client reads under [upstreamStatus] and [hint]. *)
Definition revealed_upstreamStatus (r : Response) : option Z :=
  match body r with
  | BUpstream _ st _ _ => Some st
  | _ => None
  end.

Definition revealed_hint (r : Response) : option str :=
  match body r with
  | BUpstream _ _ _ h => h
  | _ => None
  end.

Definition ids (d : list Session) : list N := List.map _id d.

Definition even_messages (s : Session) : bool :=
  Nat.even (List.length (messages s)).

(** No repository call and no provider call among the events. *)
Definition is_fetch (e : Event) : bool :=
  match e with EvFetch _ => true | _ => false end.

(** The ways one request can change the collection. *)
Inductive Effect :=
| Unchanged
| Created (s : Session)
| Deleted (id : N)
| Shared (id : N) (token : str)
| Appended (id : N) (input reply : str) (at_ : Z)
| AppendedTitled (id : N) (input reply : str) (at_ : Z).

Definition effect_db (e : Effect) (d : list Session) : list Session :=
  match e with
  | Unchanged => d
  | Created s => d ++ [s]
  | Deleted id => remove_first id d
  | Shared id t => update_first id (apply_update (SetShareToken t)) d
  | Appended id input reply t =>
    update_first id (apply_update (PushMessages (exchange input reply) t)) d
  | AppendedTitled id input reply t =>
    update_first id (apply_update (SetTitle (derive_title input)))
      (update_first id
         (apply_update (PushMessages (exchange input reply) t)) d)
  end.

(** The session a relay call is made on: a well-formed identifier of a
    stored session that the caller owns, with a non-empty utterance. *)
Record relay_ready (ObjectId_isValid : str -> bool)
  (castObjectId : str -> Exn + N) (w : World)
  (sessionId userId input : str) (id : N) (s : Session) : Prop := {
  ready_input : input <> [];
  ready_sid : sessionId <> [];
  ready_valid : ObjectId_isValid sessionId = true;
  ready_cast : castObjectId sessionId = inr id;
  ready_lookup : lookup id (db w) = Some s;
  ready_owner : owner s = userId
}.

(** When an effect on the collection is the doing of a route and goes with
    the response it gave. *)
Inductive justified (d : list Session) : Route -> Response -> Effect -> Prop :=
| J_unchanged r resp : justified d r resp Unchanged
| J_created t s resp :
    lookup (_id s) d = None -> messages s = [] ->
    justified d (POST_sessions t) resp (Created s)
| J_deleted sid id resp : justified d (DELETE_session sid) resp (Deleted id)
| J_shared p h sid id t resp :
    justified d (POST_share p h sid) resp (Shared id t)
| J_appended sid input id reply t :
    justified d (POST_messages sid input) (json 200 (BReply reply))
              (Appended id input reply t)
| J_titled sid input id reply t s :
    lookup id d = Some s -> messages s = [] ->
    justified d (POST_messages sid input) (json 200 (BReply reply))
              (AppendedTitled id input reply t).

(** The world after the session was read and the provider called. *)
Definition after_fetch (env : Env) (w : World) (sessionId apiKey input : str)
  : World :=
  {| db := db w;
     trace := trace w ++ [EvFindById sessionId] ++
              [EvFetch (provider_request env apiKey input)] |}.

(** The invariant of the collection: identifiers are unique and every
    session holds an even number of messages. *)
Definition store_ok (d : list Session) : Prop :=
  NoDup (ids d) /\ Forall (fun s => even_messages s = true) d.


(** A route returned a response and changed the collection in a justified
    way. *)
Definition behaves (r : Route) (m : M Response) (w : World) : Prop :=
  exists eff resp t',
    m w = (Ret resp, {| db := effect_db eff (db w); trace := t' |}) /\
    justified (db w) r resp eff.

(** ** The routes and client code beside the session core *)

(** [GET /api/chat/sessions]: the caller's sessions, most recently updated
    first. The order among sessions of equal [lastUpdated] is the
    store's; here it is the insertion order. *)
Fixpoint insert_desc (s : Session) (l : list Session) : list Session :=
  match l with
  | [] => [s]
  | x :: l' =>
    if (lastUpdated x <=? lastUpdated s)%Z then s :: x :: l'
    else x :: insert_desc s l'
  end.

Definition sort_lastUpdated_desc (l : list Session) : list Session :=
  fold_right insert_desc [] l.

Definition owned_by (userId : str) (s : Session) : bool :=
  str_eqb (owner s) userId.

Inductive ListBody :=
| LSessions (sessions : list Session)
| LError (error : str).

Definition listSessions (userId : str) : M (Z * ListBody) :=
  try_catch
    (d <- get_db ;;
     ret (200%Z, LSessions (sort_lastUpdated_desc (filter (owned_by userId) d))))
    (fun _ => ret (500%Z, LError (lit "Error fetching chat sessions"))).

(** *** Accounts: [/api/auth/signup], [/api/auth/login], [/api/auth/me]

    Modelled from the spec: the schema [models/User.js] is not among the
    sources; a user is the three fields the routes read and write, the
    [_id] in its string form. The collection of users is a list in
    insertion order, passed explicitly. *)
Record User := {
  user_id : str;
  user_name : str;
  passwordHash : str
}.

Record AuthEnv := {
  auth_now : Z;          (* the clock [jwt.sign] reads *)
  salt : str;            (* the salt [bcrypt.hash] draws *)
  newUserId : str        (* the _id the driver generates *)
}.

Inductive AuthBody :=
| AError (error : str)
| AToken (token id name_ : str)     (* { token, user: { id, username } } *)
| AUser (id name_ : str).           (* { user: { id, username } } *)

Definition findOne_username (name_ : str) (users : list User) : option User :=
  find (fun u => str_eqb (user_name u) name_) users.

Definition findById_user (id : str) (users : list User) : option User :=
  find (fun u => str_eqb (user_id u) id) users.

Section Accounts.

(** [bcrypt.hash] with the salt it drew, [bcrypt.compare], and [jwt.sign]
    under the server's secret at a given time. *)
Variable bcrypt_hash : str -> str -> str.
Variable bcrypt_compare : str -> str -> bool.
Variable jwt_sign : Claims -> Z -> str.

Definition signup (env : AuthEnv) (username_ password : option str)
  (users : list User) : (Z * AuthBody) * list User :=
  match truthy username_, truthy password with
  | Some name_, Some pw =>
    match findOne_username name_ users with
    | Some _ => ((409%Z, AError (lit "Username already taken")), users)
    | None =>
      let hash := bcrypt_hash pw (salt env) in
      match findById_user (newUserId env) users with
      | Some _ => ((500%Z, AError (lit "Error creating user")), users)
      | None =>
        let u := {| user_id := newUserId env; user_name := name_;
                    passwordHash := hash |} in
        let token := jwt_sign {| sub := user_id u; username := user_name u |}
                              (auth_now env) in
        ((200%Z, AToken token (user_id u) (user_name u)), users ++ [u])
      end
    end
  | _, _ => ((400%Z, AError (lit "Missing username or password")), users)
  end.

Definition login (env : AuthEnv) (username_ password : option str)
  (users : list User) : (Z * AuthBody) * list User :=
  match truthy username_, truthy password with
  | Some name_, Some pw =>
    match findOne_username name_ users with
    | None => ((401%Z, AError (lit "Invalid credentials")), users)
    | Some u =>
      if negb (bcrypt_compare pw (passwordHash u)) then
        ((401%Z, AError (lit "Invalid credentials")), users)
      else
        let token := jwt_sign {| sub := user_id u; username := user_name u |}
                              (auth_now env) in
        ((200%Z, AToken token (user_id u) (user_name u)), users)
    end
  | _, _ => ((400%Z, AError (lit "Missing username or password")), users)
  end.

(** The body of [GET /api/auth/me], behind [authMiddleware]. *)
Definition me (userId : str) (users : list User)
  : (Z * AuthBody) * list User :=
  match findById_user userId users with
  | None => ((404%Z, AError (lit "User not found")), users)
  | Some u => ((200%Z, AUser (user_id u) (user_name u)), users)
  end.

Inductive AuthRequest :=
| Signup (username_ password : option str)
| Login (username_ password : option str).

Definition auth_handle (env : AuthEnv) (r : AuthRequest) (users : list User)
  : (Z * AuthBody) * list User :=
  match r with
  | Signup u p => signup env u p users
  | Login u p => login env u p users
  end.

Fixpoint auth_serve (rs : list (AuthEnv * AuthRequest)) (users : list User)
  : list User :=
  match rs with
  | [] => users
  | (env, r) :: rs' => auth_serve rs' (snd (auth_handle env r users))
  end.

End Accounts.

(** *** The client ([Chat.js])

    [String.prototype.trim] removes white space and line terminators from
    both ends. *)
Definition is_js_whitespace (c : N) : bool :=
  ((9 <=? c) && (c <=? 13))%N || N.eqb c 32 || N.eqb c 160 ||
  N.eqb c 5760 || ((8192 <=? c) && (c <=? 8202))%N || N.eqb c 8232 ||
  N.eqb c 8233 || N.eqb c 8239 || N.eqb c 8287 || N.eqb c 12288 ||
  N.eqb c 65279.

Fixpoint trimStart (s : str) : str :=
  match s with
  | [] => []
  | c :: s' => if is_js_whitespace c then trimStart s' else s
  end.

Definition trimEnd (s : str) : str := rev (trimStart (rev s)).

Definition trim (s : str) : str := trimEnd (trimStart s).

(** The guard of [sendMessage]: the utterance posted as [input], if one is
    posted at all. *)
Definition messageToSend (input : str) (loading : bool) : option str :=
  let m := trim input in
  if is_empty m || loading then None else Some m.

(** What the client reads under [error] and [reply] of a response. *)
Definition revealed_error (r : Response) : option str :=
  match body r with
  | BError e => Some e
  | BUpstream e _ _ _ => Some e
  | BMalformed e _ => Some e
  | _ => None
  end.

Definition revealed_reply (r : Response) : option str :=
  match body r with
  | BReply t => Some t
  | _ => None
  end.

(** [String(n)] for an integer. *)
Definition String_of_Z (n : Z) : str :=
  lit (NilZero.string_of_int (Z.to_int n)).

(** [res.ok] *)
Definition res_ok (r : Response) : bool :=
  (200 <=? code r)%Z && (code r <? 300)%Z.

(** The text [sendMessage] shows for the answer to its post: [rawBody] is
    the body as text; [parses] says whether [JSON.parse] accepts it, and it
    then yields the response's JSON. *)
Definition finalReply (r : Response) (rawBody : str) (parses : bool) : str :=
  if negb (res_ok r) then
    if parses then
      match truthy (revealed_error r) with
      | Some e =>
        e ++ match truthy (revealed_hint r) with
             | Some h => lit " " ++ [8212%N] ++ lit " " ++ h
             | None => []
             end
      | None =>
        lit "Server Error " ++ String_of_Z (code r) ++ lit ": " ++ rawBody
      end
    else
      lit "Server returned HTTP " ++ String_of_Z (code r) ++ lit ": " ++
      or_default (Some rawBody) (lit "No response body")
  else
    if parses then
      match truthy (revealed_reply r) with
      | Some t => t
      | None => lit "No text reply found in the response."
      end
    else lit "Successful but unparseable response: " ++ rawBody.

(** ** More vocabulary *)

(** The part of a string before the first occurrence of [sep]. *)
Fixpoint before (sep : N) (s : str) : str :=
  match s with
  | [] => []
  | c :: s' => if N.eqb c sep then [] else c :: before sep s'
  end.

(** The user a request is made as: the [sub] of the verified bearer token,
    when [authMiddleware] lets the request through. *)
Definition bearer_token (authorization : option str) : option str :=
  match authorization with
  | None => None
  | Some auth =>
    if is_empty auth || negb (startsWith auth (lit "Bearer ")) then None
    else nth_error (split space auth) 1
  end.

Definition caller (jwt_verify : str -> option Claims)
  (authorization : option str) : option str :=
  match bearer_token authorization with
  | Some token => option_map sub (jwt_verify token)
  | None => None
  end.

Definition is_lower_hex (c : N) : bool :=
  ((48 <=? c) && (c <=? 57))%N || ((97 <=? c) && (c <=? 102))%N.

(** The calls a relay records after the session was read and the provider
    answered with text. *)
Definition reply_events (env : Env) (sessionId apiKey input reply : str)
  (first : bool) : list Event :=
  [ EvFindById sessionId;
    EvFetch (provider_request env apiKey input);
    EvFindByIdAndUpdate sessionId
      (PushMessages (exchange input reply) (now env));
    EvFindById sessionId ] ++
  (if first then [EvFindByIdAndUpdate sessionId (SetTitle (derive_title input))]
   else []).

(** The branches of the relay: the response, the collection and the calls
    recorded, by the conditions the route tests in turn. *)
Inductive relay_case (isValid : str -> bool) (castObjectId : str -> Exn + N)
  (env : Env) (sessionId userId input : str) (w : World)
  : Response -> list Session -> list Event -> Prop :=
| RC_missing_input :
    input = [] ->
    relay_case isValid castObjectId env sessionId userId input w
      (json 400 (BError (lit "Missing input"))) (db w) []
| RC_missing_session :
    input <> [] -> sessionId = [] ->
    relay_case isValid castObjectId env sessionId userId input w
      (json 400 (BError (lit "Missing session ID"))) (db w) []
| RC_invalid_id :
    input <> [] -> sessionId <> [] -> isValid sessionId = false ->
    relay_case isValid castObjectId env sessionId userId input w
      (json 400 (BError (lit "Invalid session ID format"))) (db w) []
| RC_cast_error e :
    input <> [] -> sessionId <> [] -> isValid sessionId = true ->
    castObjectId sessionId = inl e ->
    relay_case isValid castObjectId env sessionId userId input w
      (json 500 (BError (lit "Error verifying chat session: " ++ message e)))
      (db w) [EvFindById sessionId]
| RC_not_found id :
    input <> [] -> sessionId <> [] -> isValid sessionId = true ->
    castObjectId sessionId = inr id -> lookup id (db w) = None ->
    relay_case isValid castObjectId env sessionId userId input w
      (json 404 (BError (lit "Chat session not found")))
      (db w) [EvFindById sessionId]
| RC_forbidden id s :
    input <> [] -> sessionId <> [] -> isValid sessionId = true ->
    castObjectId sessionId = inr id -> lookup id (db w) = Some s ->
    owner s <> userId ->
    relay_case isValid castObjectId env sessionId userId input w
      (json 403 (BError (lit "Forbidden"))) (db w) [EvFindById sessionId]
| RC_echo id s :
    relay_ready isValid castObjectId w sessionId userId input id s ->
    truthy (GEMINI_API_KEY env) = None ->
    relay_case isValid castObjectId env sessionId userId input w
      (json 200 (BReply (echo_reply input))) (db w) [EvFindById sessionId]
| RC_fetch_rejects id s apiKey e :
    relay_ready isValid castObjectId w sessionId userId input id s ->
    truthy (GEMINI_API_KEY env) = Some apiKey ->
    fetch env (provider_request env apiKey input) = FetchRejects e ->
    relay_case isValid castObjectId env sessionId userId input w
      (json 500 (BError (String_of e))) (db w)
      [EvFindById sessionId; EvFetch (provider_request env apiKey input)]
| RC_upstream id s apiKey r :
    relay_ready isValid castObjectId w sessionId userId input id s ->
    truthy (GEMINI_API_KEY env) = Some apiKey ->
    fetch env (provider_request env apiKey input) = FetchResolves r ->
    ok r = false ->
    relay_case isValid castObjectId env sessionId userId input w
      (json 502 (BUpstream (lit "Upstream API error") (status r) (bodyText r)
                   (upstream_hint (MODEL_NAME env) (status r) (bodyText r))))
      (db w)
      [EvFindById sessionId; EvFetch (provider_request env apiKey input)]
| RC_json_throws id s apiKey r e :
    relay_ready isValid castObjectId w sessionId userId input id s ->
    truthy (GEMINI_API_KEY env) = Some apiKey ->
    fetch env (provider_request env apiKey input) = FetchResolves r ->
    ok r = true -> bodyJson r = inl e ->
    relay_case isValid castObjectId env sessionId userId input w
      (json 500 (BError (String_of e))) (db w)
      [EvFindById sessionId; EvFetch (provider_request env apiKey input)]
| RC_reply id s apiKey r data reply :
    relay_ready isValid castObjectId w sessionId userId input id s ->
    truthy (GEMINI_API_KEY env) = Some apiKey ->
    fetch env (provider_request env apiKey input) = FetchResolves r ->
    ok r = true -> bodyJson r = inr data ->
    truthy (candidateText data) = Some reply ->
    relay_case isValid castObjectId env sessionId userId input w
      (json 200 (BReply reply))
      (effect_db (if (List.length (messages s) =? 0)%nat
                  then AppendedTitled id input reply (now env)
                  else Appended id input reply (now env)) (db w))
      (reply_events env sessionId apiKey input reply
                    (List.length (messages s) =? 0)%nat)
| RC_blocked id s apiKey r data reason :
    relay_ready isValid castObjectId w sessionId userId input id s ->
    truthy (GEMINI_API_KEY env) = Some apiKey ->
    fetch env (provider_request env apiKey input) = FetchResolves r ->
    ok r = true -> bodyJson r = inr data ->
    truthy (candidateText data) = None ->
    truthy (blockReason data) = Some reason ->
    relay_case isValid castObjectId env sessionId userId input w
      (json 200 (BReply (block_notice reason)))
      (effect_db (Appended id input (block_notice reason) (now env)) (db w))
      [EvFindById sessionId; EvFetch (provider_request env apiKey input);
       EvFindByIdAndUpdate sessionId
         (PushMessages (exchange input (block_notice reason)) (now env))]
| RC_malformed id s apiKey r data :
    relay_ready isValid castObjectId w sessionId userId input id s ->
    truthy (GEMINI_API_KEY env) = Some apiKey ->
    fetch env (provider_request env apiKey input) = FetchResolves r ->
    ok r = true -> bodyJson r = inr data ->
    truthy (candidateText data) = None ->
    truthy (blockReason data) = None ->
    relay_case isValid castObjectId env sessionId userId input w
      (json 502 (BMalformed
         (lit "The model returned a response, but I couldn't find the text or reason for failure.")
         data))
      (db w)
      [EvFindById sessionId; EvFetch (provider_request env apiKey input)].

(** The session a request can write to: the one the route names, when the
    caller owns it. *)
Definition own_target (d : list Session) (uid : option str) (id : N) : Prop :=
  exists s, lookup id d = Some s /\ uid = Some (owner s).

Definition touches_own (d : list Session) (uid : option str) (e : Effect)
  : Prop :=
  match e with
  | Unchanged => True
  | Created s => lookup (_id s) d = None /\ uid = Some (owner s)
  | Deleted id => own_target d uid id
  | Shared id _ => own_target d uid id
  | Appended id _ _ _ => own_target d uid id
  | AppendedTitled id _ _ _ => own_target d uid id
  end.

(** The provider answers the relay's request for [input] with the text
    [reply]. *)
Definition provider_replies (env : Env) (apiKey input reply : str) : Prop :=
  exists r data,
    truthy (GEMINI_API_KEY env) = Some apiKey /\
    fetch env (provider_request env apiKey input) = FetchResolves r /\
    ok r = true /\ bodyJson r = inr data /\
    truthy (candidateText data) = Some reply.

(** Most recently updated first. *)
Definition newer_first (a b : Session) : Prop :=
  (lastUpdated b <= lastUpdated a)%Z.

(** Concrete accounts for the examples. *)
Module DemoAuth.

Definition hash (pw salt_ : str) : str := salt_ ++ lit "$" ++ pw.

Definition compare (pw h : str) : bool :=
  match h with
  | [] => false
  | _ => str_eqb (rev (before 36 (rev h))) pw
  end.

Definition sign (c : Claims) (t : Z) : str := sub c.

Definition env : AuthEnv :=
  {| auth_now := 1000; salt := lit "s1"; newUserId := lit "alice" |}.

Definition env2 : AuthEnv :=
  {| auth_now := 2000; salt := lit "s2"; newUserId := lit "bob" |}.

Definition users1 : list User :=
  [ {| user_id := lit "alice"; user_name := lit "Alice";
       passwordHash := hash (lit "secret") (lit "s1") |} ].

End DemoAuth.

(** More concrete environments for the examples. *)
Module DemoMore.

Definition offline : Env :=
  {| GEMINI_API_KEY := Some (lit "key"); GEMINI_MODEL := None;
     APP_URL := None;
     fetch := fun _ => FetchRejects {| name := lit "FetchError";
                                       message := lit "no network" |};
     now := 2000%Z;
     randomBytes := fun n => repeat x2a n;
     newObjectId := Demo.oid |}.

Definition garbled : Env := Demo.with_provider (Demo.fails 200 []) 2000.

Definition bearer_bob : option str := Some (lit "Bearer bob").

End DemoMore.

(** ** Request bodies that are not strings

    [express.json()] hands the route whatever JSON value the body holds
    under [input] (or [title]): the route never tests its type. A value is
    modelled by what the routes do with it, each use being one field:
    - [!v] (part_000:267, and [v || 'New Chat'] at 172);
    - [String(v)], by the template literal at 296 and by [".." + v] at 320
      (it throws for an object without callable [toString]/[valueOf]);
    - the driver's cast of [v] to the String-typed field it is written to
      ([content] at 371 and 399, [title] at 174), or the error of that
      cast; a value the driver leaves out is not told from the empty
      string;
    - [v.slice(0, 50) + (v.length > 50 ? '...' : '')] at 384, which throws
      a TypeError for a value without a [slice] method. *)
Record JsValue := {
  js_truthy : bool;
  js_String : Exn + str;
  js_cast : Exn + str;
  js_title : Exn + str
}.

Definition JsString (s : str) : JsValue :=
  {| js_truthy := negb (is_empty s);
     js_String := inr s;
     js_cast := inr s;
     js_title := inr (derive_title s) |}.

Definition TypeError_slice : Exn :=
  {| name := lit "TypeError";
     message := lit "input.slice is not a function" |}.

(** A number other than 0, given by its decimal text. *)
Definition JsNumber (text : str) : JsValue :=
  {| js_truthy := true;
     js_String := inr text;
     js_cast := inr text;
     js_title := inl TypeError_slice |}.

(** [null], [false], [0], or the field left out. *)
Definition JsNothing : JsValue :=
  {| js_truthy := false;
     js_String := inr (lit "undefined");
     js_cast := inr [];
     js_title := inl TypeError_slice |}.

Definition lift {A} (r : Exn + A) : M A :=
  match r with
  | inl e => throw e
  | inr a => ret a
  end.

Section ServerAnyBody.

Variable ObjectId_isValid : str -> bool.
Variable castObjectId : str -> Exn + N.
Variable jwt_verify : str -> option Claims.

(** The body of the relay's [try], for any value of [input]. *)
Definition relay_provider_value (env : Env) (apiKey sessionId : str)
  (input : JsValue) : M Response :=
  text <- lift (js_String input) ;;
  response <- do_fetch env (provider_request env apiKey text) ;;
  if negb (ok response) then
    let errorBody := bodyText response in
    let hint := upstream_hint (MODEL_NAME env) (status response) errorBody in
    ret (json 502 (BUpstream (lit "Upstream API error") (status response)
                             errorBody hint))
  else
    data <- response_json response ;;
    match truthy (candidateText data) with
    | Some reply =>
      content_ <- lift (js_cast input) ;;
      findByIdAndUpdate castObjectId sessionId
        (PushMessages (exchange content_ reply) (now env)) ;;;
      session <- findById castObjectId sessionId ;;
      match session with
      | None => throw TypeError_null
      | Some session =>
        (if (List.length (messages session) =? 2)%nat then
           title_ <- lift (js_title input) ;;
           findByIdAndUpdate castObjectId sessionId (SetTitle title_)
         else ret tt) ;;;
        ret (json 200 (BReply reply))
      end
    | None =>
      match truthy (blockReason data) with
      | Some reason =>
        let reply := block_notice reason in
        content_ <- lift (js_cast input) ;;
        findByIdAndUpdate castObjectId sessionId
          (PushMessages (exchange content_ reply) (now env)) ;;;
        ret (json 200 (BReply reply))
      | None =>
        ret (json 502 (BMalformed
          (lit "The model returned a response, but I couldn't find the text or reason for failure.")
          data))
      end
    end.

(** [POST /api/chat/sessions/:sessionId/messages], for any value of
    [input]. The echo is computed outside any [try]: when [String(input)]
    throws there, the route throws and no response is sent. *)
Definition relay_value (env : Env) (sessionId userId : str) (input : JsValue)
  : M Response :=
  if negb (js_truthy input) then ret (json 400 (BError (lit "Missing input")))
  else if is_empty sessionId then
    ret (json 400 (BError (lit "Missing session ID")))
  else
    verified <-
      try_catch
        (if negb (ObjectId_isValid sessionId) then
           ret (inl (json 400 (BError (lit "Invalid session ID format"))))
         else
           session <- findById castObjectId sessionId ;;
           match session with
           | None => ret (inl (json 404 (BError (lit "Chat session not found"))))
           | Some session => ret (inr session)
           end)
        (fun err =>
           ret (inl (json 500 (BError (lit "Error verifying chat session: " ++
                                       message err))))) ;;
    match verified with
    | inl response => ret response
    | inr session =>
      if negb (str_eqb (owner session) userId) then
        ret (json 403 (BError (lit "Forbidden")))
      else
        match truthy (GEMINI_API_KEY env) with
        | None =>
          text <- lift (js_String input) ;;
          ret (json 200 (BReply (echo_reply text)))
        | Some apiKey =>
          try_catch (relay_provider_value env apiKey sessionId input)
                    (fun err => ret (json 500 (BError (String_of err))))
        end
    end.

(** [POST /api/chat/sessions], for any value of [title]: a truthy title is
    cast to the String-typed field when the document is created, and a
    failed cast makes [create] throw. *)
Definition createSession_value (env : Env) (userId : str) (title_ : JsValue)
  : M Response :=
  try_catch
    (t <- (if js_truthy title_ then lift (js_cast title_)
           else ret (lit "New Chat")) ;;
     session <- create env t userId ;;
     ret (json 200 (BSession session)))
    (fun err =>
       ret (json 500 (BError (lit "Error creating chat session: " ++
                              message err)))).

(** A request with its body as parsed: the routes whose body is a string or
    absent, a relay with any [input], a creation with any [title]. *)
Inductive Call :=
| Call_route (r : Route)
| Call_messages (sessionId : str) (input : JsValue)
| Call_sessions (title_ : JsValue).

Definition handle_value (env : Env) (authorization : option str) (c : Call)
  : M Response :=
  match c with
  | Call_route r =>
    handle ObjectId_isValid castObjectId jwt_verify env authorization r
  | Call_messages sid input =>
    authMiddleware jwt_verify authorization
      (fun userId => relay_value env sid userId input)
  | Call_sessions t =>
    authMiddleware jwt_verify authorization
      (fun userId => createSession_value env userId t)
  end.

Record Incoming := {
  in_env : Env;
  in_authorization : option str;
  in_call : Call
}.

Fixpoint serve_value (rs : list Incoming) (w : World) : World :=
  match rs with
  | [] => w
  | r :: rs' =>
    serve_value rs'
      (snd (handle_value (in_env r) (in_authorization r) (in_call r) w))
  end.

End ServerAnyBody.


(** The append of one exchange to the session [id]. *)
Definition pushed (id : N) (content_ reply : str) (at_ : Z)
  (d : list Session) : list Session :=
  update_first id (apply_update (PushMessages (exchange content_ reply) at_)) d.

(** The branches of the relay for any value of [input], by what they leave
    in the collection: the outcome (a response, or the error thrown when no
    response is sent) and the collection after. *)
Inductive relay_value_case (castObjectId : str -> Exn + N) (env : Env)
  (sessionId userId : str) (input : JsValue) (w : World)
  : Outcome Response -> list Session -> Prop :=
| RV_refused resp :
    code resp <> 200%Z ->
    relay_value_case castObjectId env sessionId userId input w
      (Ret resp) (db w)
| RV_echo text :
    truthy (GEMINI_API_KEY env) = None -> js_String input = inr text ->
    relay_value_case castObjectId env sessionId userId input w
      (Ret (json 200 (BReply (echo_reply text)))) (db w)
| RV_echo_throws e :
    truthy (GEMINI_API_KEY env) = None -> js_String input = inl e ->
    relay_value_case castObjectId env sessionId userId input w
      (Throw e) (db w)
| RV_appended id s apiKey content_ reply :
    castObjectId sessionId = inr id -> lookup id (db w) = Some s ->
    owner s = userId -> truthy (GEMINI_API_KEY env) = Some apiKey ->
    js_cast input = inr content_ ->
    relay_value_case castObjectId env sessionId userId input w
      (Ret (json 200 (BReply reply)))
      (pushed id content_ reply (now env) (db w))
| RV_titled id s apiKey content_ reply title_ :
    castObjectId sessionId = inr id -> lookup id (db w) = Some s ->
    owner s = userId -> truthy (GEMINI_API_KEY env) = Some apiKey ->
    js_cast input = inr content_ -> messages s = [] ->
    js_title input = inr title_ ->
    relay_value_case castObjectId env sessionId userId input w
      (Ret (json 200 (BReply reply)))
      (update_first id (apply_update (SetTitle title_))
         (pushed id content_ reply (now env) (db w)))
| RV_title_throws id s apiKey content_ reply e :
    castObjectId sessionId = inr id -> lookup id (db w) = Some s ->
    owner s = userId -> truthy (GEMINI_API_KEY env) = Some apiKey ->
    js_cast input = inr content_ -> messages s = [] ->
    js_title input = inl e ->
    relay_value_case castObjectId env sessionId userId input w
      (Ret (json 500 (BError (String_of e))))
      (pushed id content_ reply (now env) (db w)).


(** Richer stores for the examples. *)
Module DemoStore.

Definition sid2 : str := lit "64b7f0c2a1d3e4f5a6b7c8da".

Definition oid2 : N := Eval vm_compute in
  match parse_hex 0 sid2 with Some n => n | None => 0%N end.

(** An older session of alice's that carries a share token. *)
Definition older : Session :=
  {| _id := oid2; owner := Demo.alice; title := lit "Holidays";
     messages := exchange (lit "Where to?") (lit "Lisbon");
     shareToken := Some Demo.token1; lastUpdated := 500 |}.

Definition w2 : World :=
  {| db := [Demo.fresh_session; older]; trace := [] |}.

Definition continuing : Env :=
  Demo.with_provider (Demo.replies (lit "More")) 3000.

Definition same_draw : Env := Demo.with_random x2a.

(** The JSON number 12345 as a relay's [input]. *)
Definition number_12345 : JsValue := JsNumber (lit "12345").

(** [alice]'s request to create a session, and her relay of [input]. *)
Definition create_first : Incoming :=
  {| in_env := Demo.env0; in_authorization := Demo.bearer;
     in_call := Call_sessions JsNothing |}.

Definition say (env : Env) (input : JsValue) : Incoming :=
  {| in_env := env; in_authorization := Demo.bearer;
     in_call := Call_messages Demo.sid input |}.


(** The response to [rq] after the requests [rs], and each session's
    messages afterwards. *)
Definition answered (rs : list Incoming) (rq : Incoming)
  : Outcome Response :=
  fst (handle_value isValid24 cast24 verify_plain (in_env rq)
         (in_authorization rq) (in_call rq)
         (serve_value isValid24 cast24 verify_plain rs empty_world)).

Definition histories (rs : list Incoming) : list (list Message) :=
  List.map messages
    (db (serve_value isValid24 cast24 verify_plain rs empty_world)).

End DemoStore.

Arguments lit : simpl never.

(** ** Strings *)

Lemma str_eqb_eq (a b : str) : str_eqb a b = true <-> a = b.
Proof.
  revert b; induction a as [|x a IH]; intros [|y b]; simpl;
    try (split; congruence).
  rewrite andb_true_iff, N.eqb_eq, IH. split.
  - intros [-> ->]; reflexivity.
  - intros H; inversion H; auto.
Qed.

Lemma str_eqb_refl (a : str) : str_eqb a a = true.
Proof. apply str_eqb_eq; reflexivity. Qed.

Lemma str_eqb_neq (a b : str) : a <> b -> str_eqb a b = false.
Proof.
  intros H. destruct (str_eqb a b) eqn:E; [|reflexivity].
  apply str_eqb_eq in E. contradiction.
Qed.

Lemma is_empty_false (s : str) : s <> [] -> is_empty s = false.
Proof. destruct s; simpl; congruence. Qed.

Lemma derive_title_short (input : str) :
  (List.length input <= 50)%nat -> derive_title input = input.
Proof.
  intros H. unfold derive_title, slice0.
  rewrite firstn_all2 by exact H.
  destruct (50 <? List.length input)%nat eqn:E.
  - apply Nat.ltb_lt in E. lia.
  - apply app_nil_r.
Qed.

Lemma derive_title_long (input : str) :
  (50 < List.length input)%nat ->
  derive_title input = firstn 50 input ++ lit "..." /\
  List.length (derive_title input) = 53%nat.
Proof.
  intros H. unfold derive_title, slice0.
  apply Nat.ltb_lt in H as E. rewrite E. split; [reflexivity|].
  rewrite length_app, firstn_length_le by lia. reflexivity.
Qed.

(** ** Hexadecimal tokens *)



Lemma hex_of_byte_cons (b : byte) :
  exists hi lo, hex_of_byte b = [hi; lo].
Proof. unfold hex_of_byte. eauto. Qed.


Lemma toString_hex_length (xs : list byte) :
  List.length (toString_hex xs) = (2 * List.length xs)%nat.
Proof.
  unfold toString_hex.
  induction xs as [|x xs IH]; cbn [flat_map]; [reflexivity|].
  destruct (hex_of_byte_cons x) as (h & l & E).
  rewrite E. cbn [app List.length]. rewrite IH. simpl. lia.
Qed.

(** ** The collection *)

Lemma apply_update_id (u : Update) (s : Session) : _id (apply_update u s) = _id s.
Proof. destruct u; reflexivity. Qed.


Lemma has_id_true (id : N) (s : Session) : has_id id s = true <-> _id s = id.
Proof. unfold has_id. apply N.eqb_eq. Qed.

Lemma lookup_some (id : N) (d : list Session) (s : Session) :
  lookup id d = Some s -> In s d /\ _id s = id.
Proof.
  unfold lookup. intros H. apply find_some in H as [H1 H2].
  split; [exact H1 | apply has_id_true; exact H2].
Qed.

Lemma lookup_none_notin (id : N) (d : list Session) :
  lookup id d = None <-> ~ In id (ids d).
Proof.
  unfold lookup, ids. induction d as [|s d IH]; simpl.
  - tauto.
  - destruct (has_id id s) eqn:E.
    + apply has_id_true in E. split; [discriminate | tauto].
    + assert (_id s <> id) by (intros C; apply has_id_true in C; congruence).
      rewrite IH. tauto.
Qed.

Lemma lookup_in_nodup (d : list Session) (s : Session) :
  NoDup (ids d) -> In s d -> lookup (_id s) d = Some s.
Proof.
  unfold lookup, ids. induction d as [|x d IH]; simpl; intros ND HI.
  - contradiction.
  - inversion ND as [|? ? Hx ND']; subst.
    destruct HI as [->|HI].
    + unfold has_id. rewrite N.eqb_refl. reflexivity.
    + destruct (has_id (_id s) x) eqn:E.
      * apply has_id_true in E. exfalso. apply Hx. rewrite E.
        apply in_map. exact HI.
      * apply IH; assumption.
Qed.

Lemma update_first_absent (id : N) (f : Session -> Session) (d : list Session) :
  lookup id d = None -> update_first id f d = d.
Proof.
  unfold lookup. induction d as [|s d IH]; simpl; [reflexivity|].
  destruct (has_id id s); [discriminate|]. intros H. rewrite IH; auto.
Qed.

Lemma ids_update_first (id : N) (f : Session -> Session) (d : list Session) :
  (forall s, _id (f s) = _id s) -> ids (update_first id f d) = ids d.
Proof.
  intros Hf. unfold ids. induction d as [|s d IH]; simpl; [reflexivity|].
  destruct (has_id id s); simpl; [rewrite Hf | rewrite IH]; reflexivity.
Qed.

Lemma lookup_update_first (id id' : N) (f : Session -> Session)
  (d : list Session) :
  (forall s, _id (f s) = _id s) ->
  lookup id' (update_first id f d) =
  if N.eqb id' id then option_map f (lookup id d) else lookup id' d.
Proof.
  intros Hf. unfold lookup. induction d as [|s d IH]; simpl.
  - destruct (N.eqb id' id); reflexivity.
  - destruct (has_id id s) eqn:E; simpl.
    + unfold has_id at 1. rewrite Hf. apply has_id_true in E.
      rewrite E. destruct (N.eqb id' id) eqn:E'.
      * apply N.eqb_eq in E'. subst id'. rewrite N.eqb_refl. reflexivity.
      * unfold has_id. rewrite E.
        rewrite N.eqb_sym, E'. reflexivity.
    + rewrite IH. destruct (N.eqb id' id) eqn:E'.
      * apply N.eqb_eq in E'. subst id'. rewrite E. reflexivity.
      * reflexivity.
Qed.

Lemma lookup_remove_first (id id' : N) (d : list Session) :
  NoDup (ids d) ->
  lookup id' (remove_first id d) =
  if N.eqb id' id then None else lookup id' d.
Proof.
  unfold lookup, ids. induction d as [|s d IH]; simpl; intros ND.
  - destruct (N.eqb id' id); reflexivity.
  - inversion ND as [|? ? Hs ND']; subst.
    destruct (has_id id s) eqn:E.
    + apply has_id_true in E. destruct (N.eqb id' id) eqn:E'.
      * apply N.eqb_eq in E'. subst id'. rewrite <- E in *.
        apply lookup_none_notin. exact Hs.
      * unfold has_id. rewrite E, N.eqb_sym, E'. reflexivity.
    + simpl. rewrite IH by assumption.
      destruct (N.eqb id' id) eqn:E'.
      * apply N.eqb_eq in E'. subst id'. rewrite E. reflexivity.
      * reflexivity.
Qed.

Lemma in_remove_first (id : N) (d : list Session) (s : Session) :
  In s (remove_first id d) -> In s d.
Proof.
  induction d as [|x d IH]; simpl; [tauto|].
  destruct (has_id id x); simpl; tauto.
Qed.

Lemma nodup_remove_first (id : N) (d : list Session) :
  NoDup (ids d) -> NoDup (ids (remove_first id d)).
Proof.
  unfold ids. induction d as [|s d IH]; simpl; intros ND; [constructor|].
  inversion ND as [|? ? Hs ND']; subst.
  destruct (has_id id s); [assumption|]. simpl. constructor.
  - intros C. apply Hs. apply in_map_iff in C as (x & Hx & Hin).
    apply in_map_iff. exists x. split; [exact Hx|].
    eapply in_remove_first; eassumption.
  - apply IH; assumption.
Qed.

Lemma in_update_first (id : N) (f : Session -> Session) (d : list Session)
  (s : Session) :
  In s (update_first id f d) ->
  In s d \/ exists s0, lookup id d = Some s0 /\ s = f s0.
Proof.
  unfold lookup. induction d as [|x d IH]; simpl; [tauto|].
  destruct (has_id id x); simpl.
  - intros [<-|H]; [right; eauto | tauto].
  - intros [<-|H]; [tauto|]. destruct (IH H); tauto.
Qed.

(** The first holder of a token after an update of the session [id]. *)
Lemma find_carries_update_first (id : N) (t : str) (f : Session -> Session)
  (d : list Session) (s : Session) :
  (forall x, In x d -> carries t x = false) ->
  lookup id d = Some s -> carries t (f s) = true ->
  find (carries t) (update_first id f d) = Some (f s).
Proof.
  unfold lookup. induction d as [|x d IH]; simpl; intros Hfresh Hl Hc.
  - discriminate.
  - destruct (has_id id x).
    + inversion Hl; subst. simpl. rewrite Hc. reflexivity.
    + simpl. rewrite Hfresh by auto. apply IH; auto.
Qed.

Lemma find_carries_none (t : str) (d : list Session) :
  (forall x, In x d -> carries t x = false) -> find (carries t) d = None.
Proof.
  induction d as [|x d IH]; simpl; intros H; [reflexivity|].
  rewrite H by auto. apply IH. auto.
Qed.

Lemma update_first_twice (id : N) (f g : Session -> Session)
  (d : list Session) :
  (forall s, _id (f s) = _id s) ->
  update_first id g (update_first id f d) =
  update_first id (fun s => g (f s)) d.
Proof.
  intros Hf. induction d as [|x d IH]; simpl; [reflexivity|].
  destruct (has_id id x) eqn:E; simpl.
  - unfold has_id in *. rewrite Hf, E. reflexivity.
  - rewrite E, IH. reflexivity.
Qed.


(** ** The message relay *)

Ltac run_route :=
  unfold relay, relay_provider, getSession, deleteSession, issueShareToken,
    getByShareToken, createSession, create, findById, findByIdAndUpdate,
    findByIdAndDelete, findOne_shareToken, do_fetch, response_json, cast,
    bind, ret, throw, try_catch, log, get_db, put_db;
  cbn [db trace fst snd].

Section RelayProperties.

Variable ObjectId_isValid : str -> bool.
Variable castObjectId : str -> Exn + N.

(** Up to the provider call, a ready relay only reads the session. *)
Lemma relay_ready_run (env : Env) (w : World) (sessionId userId input : str)
  (id : N) (s : Session) :
  relay_ready ObjectId_isValid castObjectId w sessionId userId input id s ->
  relay ObjectId_isValid castObjectId env sessionId userId input w =
  match truthy (GEMINI_API_KEY env) with
  | None =>
    (Ret (json 200 (BReply (echo_reply input))),
     {| db := db w; trace := trace w ++ [EvFindById sessionId] |})
  | Some apiKey =>
    try_catch (relay_provider castObjectId env apiKey sessionId input)
      (fun err => ret (json 500 (BError (String_of err))))
      {| db := db w; trace := trace w ++ [EvFindById sessionId] |}
  end.
Proof.
  intros [Hi Hs Hv Hc Hl Ho].
  unfold relay. rewrite (is_empty_false Hi), (is_empty_false Hs), Hv.
  unfold findById, cast, bind, ret, try_catch, log, get_db. cbn [db trace negb].
  rewrite Hc. cbn [db trace]. rewrite Hl, Ho, str_eqb_refl. cbn [negb].
  destruct (truthy (GEMINI_API_KEY env)); reflexivity.
Qed.

(** C3 (as amended): an empty utterance is rejected with 400 'Missing input'
    before anything else happens: the collection and the record of calls
    are exactly as before, so no message was appended, no field changed and
    the provider was not invoked. *)
Theorem relay_empty_utterance (env : Env) (sessionId userId : str) (w : World) :
  relay ObjectId_isValid castObjectId env sessionId userId [] w =
  (Ret (json 400 (BError (lit "Missing input"))), w).
Proof. reflexivity. Qed.

(** C10: a relay call whose session identifier is not of ObjectId format is
    answered 400 without any repository or provider call (the world is
    untouched); for a non-empty utterance and identifier the error is
    'Invalid session ID format'. *)
Theorem relay_malformed_session_id (env : Env) (sessionId userId input : str)
  (w : World) :
  ObjectId_isValid sessionId = false ->
  exists error,
    relay ObjectId_isValid castObjectId env sessionId userId input w = (Ret (json 400 (BError error)), w) /\
    (input <> [] -> sessionId <> [] ->
     error = lit "Invalid session ID format").
Proof.
  intros Hv. unfold relay.
  destruct input as [|c input].
  - eexists. split; [reflexivity|]. congruence.
  - destruct sessionId as [|c' sid'].
    + eexists. split; [reflexivity|]. congruence.
    + cbn [is_empty]. rewrite Hv. eexists. split; [reflexivity|]. reflexivity.
Qed.

(** C1 (as amended): without a provider credential a ready relay call
    answers the deterministic echo of the utterance and leaves the
    collection as it was; only the lookup of the session is recorded. *)
Theorem relay_echo_without_credential (env : Env) (w : World)
  (sessionId userId input : str) (id : N) (s : Session) :
  relay_ready ObjectId_isValid castObjectId w sessionId userId input id s ->
  truthy (GEMINI_API_KEY env) = None ->
  relay ObjectId_isValid castObjectId env sessionId userId input w =
  (Ret (json 200 (BReply (echo_reply input))),
   {| db := db w; trace := trace w ++ [EvFindById sessionId] |}).
Proof.
  intros Hr Hk. rewrite (relay_ready_run env Hr), Hk. reflexivity.
Qed.

(** A non-success status from the provider. *)
Lemma relay_upstream_run (env : Env) (w : World)
  (sessionId userId input apiKey : str) (id : N) (s : Session)
  (r : FetchResponse) :
  relay_ready ObjectId_isValid castObjectId w sessionId userId input id s ->
  truthy (GEMINI_API_KEY env) = Some apiKey ->
  fetch env (provider_request env apiKey input) = FetchResolves r ->
  ok r = false ->
  relay ObjectId_isValid castObjectId env sessionId userId input w =
  (Ret (json 502 (BUpstream (lit "Upstream API error") (status r) (bodyText r)
                    (upstream_hint (MODEL_NAME env) (status r) (bodyText r)))),
   after_fetch env w sessionId apiKey input).
Proof.
  intros Hr Hk Hf Hok. rewrite (relay_ready_run env Hr), Hk.
  unfold relay_provider, do_fetch, bind, ret, throw, try_catch, log,
    after_fetch.
  cbn [db trace]. rewrite Hf, Hok, <- app_assoc. reflexivity.
Qed.

(** A success from the provider with neither text nor block reason. *)
Lemma relay_malformed_run (env : Env) (w : World)
  (sessionId userId input apiKey : str) (id : N) (s : Session)
  (r : FetchResponse) (data : GeminiData) :
  relay_ready ObjectId_isValid castObjectId w sessionId userId input id s ->
  truthy (GEMINI_API_KEY env) = Some apiKey ->
  fetch env (provider_request env apiKey input) = FetchResolves r ->
  ok r = true -> bodyJson r = inr data ->
  truthy (candidateText data) = None -> truthy (blockReason data) = None ->
  relay ObjectId_isValid castObjectId env sessionId userId input w =
  (Ret (json 502 (BMalformed
     (lit "The model returned a response, but I couldn't find the text or reason for failure.")
     data)),
   after_fetch env w sessionId apiKey input).
Proof.
  intros Hr Hk Hf Hok Hj Hc Hb. rewrite (relay_ready_run env Hr), Hk.
  unfold relay_provider, do_fetch, response_json, bind, ret, throw,
    try_catch, log, after_fetch.
  cbn [db trace]. rewrite Hf, Hok, Hj, <- app_assoc. cbn [negb].
  rewrite Hc, Hb. reflexivity.
Qed.

(** C4: when the provider answers with a non-success status, or with a
    success that carries neither text nor block reason, the relay answers
    502 and the collection is unchanged (only the lookup and the provider
    call are recorded); the error of the first kind carries the upstream
    status, the upstream body and the hint chosen for that status. *)
Theorem relay_provider_failure (env : Env) (w : World)
  (sessionId userId input apiKey : str) (id : N) (s : Session)
  (r : FetchResponse) :
  relay_ready ObjectId_isValid castObjectId w sessionId userId input id s ->
  truthy (GEMINI_API_KEY env) = Some apiKey ->
  fetch env (provider_request env apiKey input) = FetchResolves r ->
  (ok r = false ->
   exists resp,
     relay ObjectId_isValid castObjectId env sessionId userId input w =
     (Ret resp, after_fetch env w sessionId apiKey input) /\
     db (after_fetch env w sessionId apiKey input) = db w /\
     code resp = 502%Z /\
     revealed_upstreamStatus resp = Some (status r) /\
     revealed_hint resp =
       upstream_hint (MODEL_NAME env) (status r) (bodyText r) /\
     body resp = BUpstream (lit "Upstream API error") (status r) (bodyText r)
                   (upstream_hint (MODEL_NAME env) (status r) (bodyText r))) /\
  (forall data, ok r = true -> bodyJson r = inr data ->
   truthy (candidateText data) = None -> truthy (blockReason data) = None ->
   exists resp,
     relay ObjectId_isValid castObjectId env sessionId userId input w =
     (Ret resp, after_fetch env w sessionId apiKey input) /\
     db (after_fetch env w sessionId apiKey input) = db w /\
     code resp = 502%Z /\
     body resp = BMalformed
       (lit "The model returned a response, but I couldn't find the text or reason for failure.")
       data).
Proof.
  intros Hr Hk Hf. split.
  - intros Hok. eexists. split; [apply (relay_upstream_run env Hr Hk Hf Hok)|].
    repeat split.
  - intros data Hok Hj Hc Hb. eexists.
    split; [apply (relay_malformed_run env Hr Hk Hf Hok Hj Hc Hb)|].
    repeat split.
Qed.

(** The provider's answer carries text: the exchange is appended, and the
    title is rewritten when the session read back holds two messages. *)
Lemma relay_reply_run (env : Env) (w : World)
  (sessionId userId input apiKey reply : str) (id : N) (s : Session)
  (r : FetchResponse) (data : GeminiData) :
  relay_ready ObjectId_isValid castObjectId w sessionId userId input id s ->
  truthy (GEMINI_API_KEY env) = Some apiKey ->
  fetch env (provider_request env apiKey input) = FetchResolves r ->
  ok r = true -> bodyJson r = inr data ->
  truthy (candidateText data) = Some reply ->
  exists t',
    relay ObjectId_isValid castObjectId env sessionId userId input w =
    (Ret (json 200 (BReply reply)),
     {| db := effect_db
                (if (List.length (messages s) =? 0)%nat
                 then AppendedTitled id input reply (now env)
                 else Appended id input reply (now env)) (db w);
        trace := t' |}).
Proof.
  intros Hr Hk Hf Hok Hj Hc. rewrite (relay_ready_run env Hr), Hk.
  destruct Hr as [Hi Hs Hv Hca Hl Ho].
  unfold relay_provider, do_fetch, response_json, findByIdAndUpdate, findById,
    cast, bind, ret, throw, try_catch, log, get_db, put_db.
  cbn [db trace]. rewrite Hf, Hok, Hj. cbn [negb]. rewrite Hc, Hca.
  cbn [db trace].
  rewrite lookup_update_first by (intros; apply apply_update_id).
  rewrite N.eqb_refl, Hl. cbn [option_map apply_update messages].
  rewrite length_app. cbn [exchange List.length].
  destruct (List.length (messages s)) as [|n] eqn:En.
  - cbn [Nat.add Nat.eqb db trace effect_db].
    eexists. reflexivity.
  - replace (S n + 2 =? 2)%nat with false
      by (symmetry; apply Nat.eqb_neq; lia).
    cbn [Nat.eqb effect_db]. eexists. reflexivity.
Qed.

(** The provider declined with a reason: the exchange with the block
    notice is appended, and nothing else is written. *)
Lemma relay_blocked_run (env : Env) (w : World)
  (sessionId userId input apiKey reason : str) (id : N) (s : Session)
  (r : FetchResponse) (data : GeminiData) :
  relay_ready ObjectId_isValid castObjectId w sessionId userId input id s ->
  truthy (GEMINI_API_KEY env) = Some apiKey ->
  fetch env (provider_request env apiKey input) = FetchResolves r ->
  ok r = true -> bodyJson r = inr data ->
  truthy (candidateText data) = None ->
  truthy (blockReason data) = Some reason ->
  exists t',
    relay ObjectId_isValid castObjectId env sessionId userId input w =
    (Ret (json 200 (BReply (block_notice reason))),
     {| db := effect_db (Appended id input (block_notice reason) (now env))
                        (db w);
        trace := t' |}).
Proof.
  intros Hr Hk Hf Hok Hj Hc Hb. rewrite (relay_ready_run env Hr), Hk.
  destruct Hr as [Hi Hs Hv Hca Hl Ho].
  unfold relay_provider, do_fetch, response_json, findByIdAndUpdate,
    cast, bind, ret, throw, try_catch, log, get_db, put_db.
  cbn [db trace]. rewrite Hf, Hok, Hj. cbn [negb]. rewrite Hc, Hb, Hca.
  cbn [db trace effect_db]. eexists. reflexivity.
Qed.

(** After a text answer the session read back holds the exchange at the
    end of its history, the new [lastUpdated], and a title that is derived
    from the utterance exactly when the history now has two messages. *)
Lemma relay_reply_persisted (env : Env) (w : World)
  (sessionId userId input apiKey reply : str) (id : N) (s : Session)
  (r : FetchResponse) (data : GeminiData) :
  relay_ready ObjectId_isValid castObjectId w sessionId userId input id s ->
  truthy (GEMINI_API_KEY env) = Some apiKey ->
  fetch env (provider_request env apiKey input) = FetchResolves r ->
  ok r = true -> bodyJson r = inr data ->
  truthy (candidateText data) = Some reply ->
  exists w' s',
    relay ObjectId_isValid castObjectId env sessionId userId input w =
      (Ret (json 200 (BReply reply)), w') /\
    lookup id (db w') = Some s' /\
    messages s' = messages s ++ exchange input reply /\
    lastUpdated s' = now env /\
    title s' = (if (List.length (messages s') =? 2)%nat
                then derive_title input else title s).
Proof.
  intros Hr Hk Hf Hok Hj Hc.
  destruct (relay_reply_run env Hr Hk Hf Hok Hj Hc) as (t' & E).
  pose proof (ready_lookup Hr) as Hl.
  destruct (List.length (messages s)) as [|n] eqn:En.
  - do 2 eexists. split; [exact E|]. cbn [Nat.eqb db effect_db].
    rewrite update_first_twice by (intros; apply apply_update_id).
    rewrite lookup_update_first by (intros; rewrite !apply_update_id; auto).
    rewrite N.eqb_refl, Hl. cbn [option_map apply_update messages title
                                 lastUpdated].
    repeat split. cbn [title messages]. rewrite length_app, En. reflexivity.
  - do 2 eexists. split; [exact E|]. cbn [Nat.eqb db effect_db].
    rewrite lookup_update_first by (intros; apply apply_update_id).
    rewrite N.eqb_refl, Hl. cbn [option_map apply_update messages title
                                 lastUpdated].
    repeat split. cbn [title messages]. rewrite length_app, En.
    cbn [exchange List.length].
    replace (S n + 2 =? 2)%nat with false
      by (symmetry; apply Nat.eqb_neq; lia).
    reflexivity.
Qed.

(** After a block notice the session read back holds the exchange and the
    new [lastUpdated]; its title is the one it had. *)
Lemma relay_blocked_persisted (env : Env) (w : World)
  (sessionId userId input apiKey reason : str) (id : N) (s : Session)
  (r : FetchResponse) (data : GeminiData) :
  relay_ready ObjectId_isValid castObjectId w sessionId userId input id s ->
  truthy (GEMINI_API_KEY env) = Some apiKey ->
  fetch env (provider_request env apiKey input) = FetchResolves r ->
  ok r = true -> bodyJson r = inr data ->
  truthy (candidateText data) = None ->
  truthy (blockReason data) = Some reason ->
  exists w' s',
    relay ObjectId_isValid castObjectId env sessionId userId input w =
      (Ret (json 200 (BReply (block_notice reason))), w') /\
    lookup id (db w') = Some s' /\
    messages s' = messages s ++ exchange input (block_notice reason) /\
    lastUpdated s' = now env /\
    title s' = title s.
Proof.
  intros Hr Hk Hf Hok Hj Hc Hb.
  destruct (relay_blocked_run env Hr Hk Hf Hok Hj Hc Hb) as (t' & E).
  pose proof (ready_lookup Hr) as Hl.
  do 2 eexists. split; [exact E|]. cbn [db effect_db].
  rewrite lookup_update_first by (intros; apply apply_update_id).
  rewrite N.eqb_refl, Hl. repeat split.
Qed.

(** Every relay call returns a response, and what it did to the
    collection is nothing, or the append of one exchange that it answered
    with 200 and the assistant's text. *)
Lemma relay_effect (env : Env) (sessionId userId input : str) (w : World) :
  exists eff resp t',
    relay ObjectId_isValid castObjectId env sessionId userId input w =
    (Ret resp, {| db := effect_db eff (db w); trace := t' |}) /\
    justified (db w) (POST_messages sessionId input) resp eff.
Proof.
  destruct (is_empty input) eqn:Ei.
  { exists Unchanged. unfold relay. rewrite Ei. destruct w.
    do 2 eexists. split; [reflexivity | constructor]. }
  destruct (is_empty sessionId) eqn:Es.
  { exists Unchanged. unfold relay. rewrite Ei, Es. destruct w.
    do 2 eexists. split; [reflexivity | constructor]. }
  destruct (ObjectId_isValid sessionId) eqn:Ev.
  2:{ exists Unchanged. unfold relay. rewrite Ei, Es, Ev. destruct w.
      do 2 eexists. split; [reflexivity | constructor]. }
  destruct (castObjectId sessionId) as [e|id] eqn:Ec.
  { exists Unchanged. run_route. rewrite Ei, Es, Ev, Ec. cbn [negb].
    do 2 eexists. split; [reflexivity | constructor]. }
  destruct (lookup id (db w)) as [s|] eqn:El.
  2:{ exists Unchanged. run_route. rewrite Ei, Es, Ev, Ec. cbn [negb db].
      rewrite El. do 2 eexists. split; [reflexivity | constructor]. }
  destruct (str_eqb (owner s) userId) eqn:Eo.
  2:{ exists Unchanged. run_route. rewrite Ei, Es, Ev, Ec. cbn [negb db].
      rewrite El, Eo. do 2 eexists. split; [reflexivity | constructor]. }
  assert (relay_ready ObjectId_isValid castObjectId w sessionId userId input
            id s) as Hr.
  { constructor; auto.
    - intros ->. discriminate.
    - intros ->. discriminate.
    - apply str_eqb_eq. exact Eo. }
  destruct (truthy (GEMINI_API_KEY env)) as [apiKey|] eqn:Ek.
  2:{ exists Unchanged. rewrite (relay_ready_run env Hr), Ek.
      do 2 eexists. split; [reflexivity | constructor]. }
  destruct (fetch env (provider_request env apiKey input)) as [e|r] eqn:Ef.
  { exists Unchanged. rewrite (relay_ready_run env Hr), Ek. run_route.
    rewrite Ef. do 2 eexists. split; [reflexivity | constructor]. }
  destruct (ok r) eqn:Eok.
  2:{ exists Unchanged. rewrite (relay_upstream_run env Hr Ek Ef Eok).
      do 2 eexists. split; [reflexivity | constructor]. }
  destruct (bodyJson r) as [e|data] eqn:Ej.
  { exists Unchanged. rewrite (relay_ready_run env Hr), Ek. run_route.
    rewrite Ef, Eok, Ej. do 2 eexists. split; [reflexivity | constructor]. }
  destruct (truthy (candidateText data)) as [reply|] eqn:Ect.
  { destruct (relay_reply_run env Hr Ek Ef Eok Ej Ect) as (t' & H).
    rewrite H. destruct (List.length (messages s)) eqn:En.
    - cbn [Nat.eqb]. do 3 eexists. split; [reflexivity|].
      apply J_titled with (s := s); [exact El|].
      destruct (messages s); [reflexivity | discriminate].
    - cbn [Nat.eqb]. do 3 eexists. split; [reflexivity | constructor]. }
  destruct (truthy (blockReason data)) as [reason|] eqn:Eb.
  { destruct (relay_blocked_run env Hr Ek Ef Eok Ej Ect Eb) as (t' & H).
    rewrite H. do 3 eexists. split; [reflexivity | constructor]. }
  exists Unchanged.
  rewrite (relay_malformed_run env Hr Ek Ef Eok Ej Ect Eb). do 2 eexists.
  split; [reflexivity | constructor].
Qed.

End RelayProperties.

(** ** The session manager *)

Section SessionProperties.

Variable castObjectId : str -> Exn + N.

(** What [findById] answers on a well-formed identifier. *)
Lemma findById_run (sessionId : str) (id : N) (w : World) :
  castObjectId sessionId = inr id ->
  findById castObjectId sessionId w =
  (Ret (lookup id (db w)),
   {| db := db w; trace := trace w ++ [EvFindById sessionId] |}).
Proof.
  intros Hc. unfold findById, cast, bind, ret, log, get_db. cbn [db trace].
  rewrite Hc. reflexivity.
Qed.

Lemma getSession_run (sessionId userId : str) (id : N) (w : World) :
  castObjectId sessionId = inr id ->
  getSession castObjectId sessionId userId w =
  (Ret match lookup id (db w) with
       | None => json 404 (BError (lit "Chat session not found"))
       | Some s =>
         if str_eqb (owner s) userId then json 200 (BSession s)
         else json 403 (BError (lit "Forbidden"))
       end,
   {| db := db w; trace := trace w ++ [EvFindById sessionId] |}).
Proof.
  intros Hc. unfold getSession, try_catch, bind.
  rewrite (findById_run w Hc).
  destruct (lookup id (db w)) as [s|]; [|reflexivity].
  destruct (str_eqb (owner s) userId); reflexivity.
Qed.

Lemma deleteSession_run (sessionId userId : str) (id : N) (w : World) :
  castObjectId sessionId = inr id ->
  deleteSession castObjectId sessionId userId w =
  match lookup id (db w) with
  | None =>
    (Ret (json 404 (BError (lit "Chat session not found"))),
     {| db := db w; trace := trace w ++ [EvFindById sessionId] |})
  | Some s =>
    if str_eqb (owner s) userId then
      (Ret (json 200 (BMessage (lit "Chat session deleted successfully"))),
       {| db := remove_first id (db w);
          trace := (trace w ++ [EvFindById sessionId]) ++
                   [EvFindByIdAndDelete sessionId] |})
    else
      (Ret (json 403 (BError (lit "Forbidden"))),
       {| db := db w; trace := trace w ++ [EvFindById sessionId] |})
  end.
Proof.
  intros Hc. unfold deleteSession, try_catch, bind.
  rewrite (findById_run w Hc).
  destruct (lookup id (db w)) as [s|]; [|reflexivity].
  destruct (str_eqb (owner s) userId); [|reflexivity].
  unfold findByIdAndDelete, cast, bind, ret, log, get_db, put_db.
  cbn [negb db trace]. rewrite Hc. reflexivity.
Qed.

Lemma issueShareToken_run (env : Env) (protocol host sessionId userId : str)
  (id : N) (w : World) :
  castObjectId sessionId = inr id ->
  issueShareToken castObjectId env protocol host sessionId userId w =
  match lookup id (db w) with
  | None =>
    (Ret (json 404 (BError (lit "Chat session not found"))),
     {| db := db w; trace := trace w ++ [EvFindById sessionId] |})
  | Some s =>
    if str_eqb (owner s) userId then
      let t := toString_hex (randomBytes env 16) in
      (Ret (json 200 (BShare t
              (or_default (APP_URL env) (protocol ++ lit "://" ++ host) ++
               lit "/share/" ++ t))),
       {| db := update_first id (apply_update (SetShareToken t)) (db w);
          trace := (trace w ++ [EvFindById sessionId]) ++
                   [EvFindByIdAndUpdate sessionId (SetShareToken t)] |})
    else
      (Ret (json 403 (BError (lit "Forbidden"))),
       {| db := db w; trace := trace w ++ [EvFindById sessionId] |})
  end.
Proof.
  intros Hc. unfold issueShareToken, try_catch, bind.
  rewrite (findById_run w Hc).
  destruct (lookup id (db w)) as [s|]; [|reflexivity].
  destruct (str_eqb (owner s) userId); [|reflexivity].
  unfold findByIdAndUpdate, cast, bind, ret, log, get_db, put_db.
  cbn [negb db trace]. rewrite Hc. reflexivity.
Qed.

Lemma getByShareToken_run (token : str) (w : World) :
  getByShareToken token w =
  (Ret match find (carries token) (db w) with
       | Some s => json 200 (BSession s)
       | None => json 404 (BError (lit "Shared chat not found"))
       end,
   {| db := db w; trace := trace w ++ [EvFindOne token] |}).
Proof.
  unfold getByShareToken, findOne_shareToken, try_catch, bind, ret, log,
    get_db.
  cbn [db trace]. destruct (find (carries token) (db w)); reflexivity.
Qed.

(** On a well-formed session identifier, reading and
    deleting answer 404 when no session has the id and 403 when its owner
    is not the caller; the owner's delete removes the session, after which
    a second delete of the same id answers 404. *)
Theorem session_access_and_delete (sessionId userId : str) (id : N)
  (w : World) :
  castObjectId sessionId = inr id ->
  NoDup (ids (db w)) ->
  let seen := {| db := db w; trace := trace w ++ [EvFindById sessionId] |} in
  let not_found := json 404 (BError (lit "Chat session not found")) in
  let forbidden := json 403 (BError (lit "Forbidden")) in
  (lookup id (db w) = None ->
   getSession castObjectId sessionId userId w = (Ret not_found, seen) /\
   deleteSession castObjectId sessionId userId w = (Ret not_found, seen)) /\
  (forall s, lookup id (db w) = Some s -> owner s <> userId ->
   getSession castObjectId sessionId userId w = (Ret forbidden, seen) /\
   deleteSession castObjectId sessionId userId w = (Ret forbidden, seen)) /\
  (forall s, lookup id (db w) = Some s -> owner s = userId ->
   getSession castObjectId sessionId userId w =
     (Ret (json 200 (BSession s)), seen) /\
   exists w' w'',
     deleteSession castObjectId sessionId userId w =
       (Ret (json 200 (BMessage (lit "Chat session deleted successfully"))),
        w') /\
     db w' = remove_first id (db w) /\
     lookup id (db w') = None /\
     deleteSession castObjectId sessionId userId w' = (Ret not_found, w'') /\
     db w'' = db w').
Proof.
  intros Hc ND seen not_found forbidden.
  rewrite (getSession_run userId w Hc), (deleteSession_run userId w Hc).
  split; [|split].
  - intros ->. split; reflexivity.
  - intros s -> Ho. rewrite (str_eqb_neq Ho). split; reflexivity.
  - intros s -> ->. rewrite str_eqb_refl. split; [reflexivity|].
    assert (lookup id (remove_first id (db w)) = None) as Hn.
    { rewrite lookup_remove_first by exact ND. rewrite N.eqb_refl.
      reflexivity. }
    do 2 eexists. split; [reflexivity|]. cbn [db].
    split; [reflexivity|]. split; [exact Hn|].
    rewrite (deleteSession_run userId _ Hc). cbn [db]. rewrite Hn.
    split; reflexivity.
Qed.

End SessionProperties.

(** ** Every request, and sequences of requests *)

Lemma Forall_update_first (P : Session -> Prop) (id : N)
  (f : Session -> Session) (d : list Session) :
  (forall s, P s -> P (f s)) -> Forall P d -> Forall P (update_first id f d).
Proof.
  intros Hf. induction 1 as [|x d Hx Hd IH]; simpl; [constructor|].
  destruct (has_id id x); constructor; auto.
Qed.

Lemma Forall_remove_first (P : Session -> Prop) (id : N) (d : list Session) :
  Forall P d -> Forall P (remove_first id d).
Proof.
  induction 1 as [|x d Hx Hd IH]; simpl; [constructor|].
  destruct (has_id id x); [assumption | constructor; assumption].
Qed.

Lemma even_messages_update (u : Update) (s : Session) :
  (forall ms t, u = PushMessages ms t -> Nat.even (List.length ms) = true) ->
  even_messages s = true -> even_messages (apply_update u s) = true.
Proof.
  unfold even_messages. intros Hu Hs. destruct u as [ms t| |]; simpl; auto.
  rewrite length_app, Nat.even_add, Hs, (Hu ms t eq_refl). reflexivity.
Qed.

Lemma justified_store_ok (d : list Session) (r : Route) (resp : Response)
  (eff : Effect) :
  store_ok d -> justified d r resp eff -> store_ok (effect_db eff d).
Proof.
  intros [ND EV] J. destruct J; cbn [effect_db].
  - split; assumption.
  - split.
    + unfold ids. rewrite map_app. simpl.
      apply NoDup_app; [exact ND | repeat constructor; simpl; tauto |].
      intros x Hx [<-|[]]. revert Hx. apply lookup_none_notin. assumption.
    + apply Forall_app. split; [exact EV|]. constructor; [|constructor].
      unfold even_messages. rewrite H0. reflexivity.
  - split; [apply nodup_remove_first | apply Forall_remove_first]; assumption.
  - split.
    + rewrite ids_update_first by (intros; apply apply_update_id). exact ND.
    + apply Forall_update_first; [|exact EV]. intros s Hs.
      apply even_messages_update; [discriminate | exact Hs].
  - split.
    + rewrite ids_update_first by (intros; apply apply_update_id). exact ND.
    + apply Forall_update_first; [|exact EV]. intros s Hs.
      apply even_messages_update; [|exact Hs].
      intros ms t' E. inversion E. reflexivity.
  - split.
    + rewrite !ids_update_first by (intros; apply apply_update_id). exact ND.
    + apply Forall_update_first.
      { intros s0 Hs. apply even_messages_update; [discriminate | exact Hs]. }
      apply Forall_update_first; [|exact EV]. intros s0 Hs.
      apply even_messages_update; [|exact Hs].
      intros ms t' E. inversion E. reflexivity.
Qed.


Section ServerProperties.

Variable ObjectId_isValid : str -> bool.
Variable castObjectId : str -> Exn + N.
Variable jwt_verify : str -> option Claims.

Lemma authMiddleware_behaves (r : Route) (authorization : option str)
  (next : str -> M Response) (w : World) :
  (forall userId, behaves r (next userId) w) ->
  behaves r (authMiddleware jwt_verify authorization next) w.
Proof.
  intros Hn.
  assert (forall msg, behaves r (ret (json 401 (BError msg))) w) as H401.
  { intros msg. exists Unchanged. destruct w. do 2 eexists.
    split; [reflexivity | constructor]. }
  unfold authMiddleware. destruct authorization as [auth|]; [|apply H401].
  destruct (is_empty auth || negb (startsWith auth (lit "Bearer ")));
    [apply H401|].
  destruct (nth_error (split space auth) 1) as [token|]; [|apply H401].
  destruct (jwt_verify token) as [payload|]; [apply Hn | apply H401].
Qed.

Lemma findById_throws (sessionId : str) (e : Exn) (w : World) :
  castObjectId sessionId = inl e ->
  findById castObjectId sessionId w =
  (Throw e, {| db := db w; trace := trace w ++ [EvFindById sessionId] |}).
Proof.
  intros Hc. unfold findById, cast, bind, throw, log. cbn [db trace].
  rewrite Hc. reflexivity.
Qed.

Lemma getSession_behaves (sessionId userId : str) (w : World) :
  behaves (GET_session sessionId) (getSession castObjectId sessionId userId) w.
Proof.
  exists Unchanged. destruct (castObjectId sessionId) as [e|id] eqn:Hc.
  - unfold getSession, try_catch, bind. rewrite (findById_throws w Hc).
    do 2 eexists. split; [reflexivity | constructor].
  - rewrite getSession_run with (id := id) by exact Hc. do 2 eexists.
    split; [reflexivity | constructor].
Qed.

Lemma deleteSession_behaves (sessionId userId : str) (w : World) :
  behaves (DELETE_session sessionId)
          (deleteSession castObjectId sessionId userId) w.
Proof.
  destruct (castObjectId sessionId) as [e|id] eqn:Hc.
  - exists Unchanged. unfold deleteSession, try_catch, bind.
    rewrite (findById_throws w Hc).
    do 2 eexists. split; [reflexivity | constructor].
  - unfold behaves. rewrite deleteSession_run with (id := id) by exact Hc.
    destruct (lookup id (db w)) as [s|].
    + destruct (str_eqb (owner s) userId).
      * exists (Deleted id). do 2 eexists. split; [reflexivity | constructor].
      * exists Unchanged. do 2 eexists. split; [reflexivity | constructor].
    + exists Unchanged. do 2 eexists. split; [reflexivity | constructor].
Qed.

Lemma issueShareToken_behaves (env : Env)
  (protocol host sessionId userId : str) (w : World) :
  behaves (POST_share protocol host sessionId)
          (issueShareToken castObjectId env protocol host sessionId userId) w.
Proof.
  destruct (castObjectId sessionId) as [e|id] eqn:Hc.
  - exists Unchanged. unfold issueShareToken, try_catch, bind.
    rewrite (findById_throws w Hc).
    do 2 eexists. split; [reflexivity | constructor].
  - unfold behaves. rewrite issueShareToken_run with (id := id) by exact Hc.
    destruct (lookup id (db w)) as [s|].
    + destruct (str_eqb (owner s) userId).
      * exists (Shared id (toString_hex (randomBytes env 16))).
        do 2 eexists. split; [reflexivity | constructor].
      * exists Unchanged. do 2 eexists. split; [reflexivity | constructor].
    + exists Unchanged. do 2 eexists. split; [reflexivity | constructor].
Qed.

Lemma createSession_behaves (env : Env) (userId : str) (t : option str)
  (w : World) :
  behaves (POST_sessions t) (createSession env userId t) w.
Proof.
  unfold behaves, createSession, create, try_catch, bind, ret, throw, log,
    get_db, put_db.
  cbn [db trace _id].
  destruct (lookup (newObjectId env) (db w)) eqn:El.
  - exists Unchanged. do 2 eexists. split; [reflexivity | constructor].
  - eexists (Created _). do 2 eexists. split; [reflexivity|].
    constructor; [exact El | reflexivity].
Qed.

(** Every request gets a response, and its effect on the collection is
    a justified one. *)
Lemma handle_behaves (env : Env) (authorization : option str) (r : Route)
  (w : World) :
  behaves r (handle ObjectId_isValid castObjectId jwt_verify env
                    authorization r) w.
Proof.
  destruct r; cbn [handle]; try apply authMiddleware_behaves; intros.
  - apply createSession_behaves.
  - apply getSession_behaves.
  - apply deleteSession_behaves.
  - apply issueShareToken_behaves.
  - exists Unchanged. rewrite getByShareToken_run. do 2 eexists.
    split; [reflexivity | constructor].
  - apply relay_effect.
Qed.

Lemma serve_store_ok (rs : list Request) (w : World) :
  store_ok (db w) ->
  store_ok (db (serve ObjectId_isValid castObjectId jwt_verify rs w)).
Proof.
  revert w. induction rs as [|rq rs IH]; intros w OK; [exact OK|].
  cbn [serve]. apply IH.
  destruct (handle_behaves (req_env rq) (req_authorization rq) (req_route rq) w)
    as (eff & resp & t' & -> & J).
  cbn [snd db]. eapply justified_store_ok; eassumption.
Qed.

(** C7 (as amended): the share link is served whatever the Authorization
    header, even none; a token that no session carries is answered 404, and
    a token that a session carries is answered with the whole document of
    the first such session (owner, title and share token included), the
    collection being left as it was. *)
Theorem share_link_access (env : Env) (authorization : option str)
  (token : str) (w : World) :
  handle ObjectId_isValid castObjectId jwt_verify env authorization
         (GET_share token) w =
  (Ret match find (carries token) (db w) with
       | Some s => json 200 (BSession s)
       | None => json 404 (BError (lit "Shared chat not found"))
       end,
   {| db := db w; trace := trace w ++ [EvFindOne token] |}).
Proof. cbn [handle]. apply getByShareToken_run. Qed.

End ServerProperties.

(** ** The routes on concrete requests *)

Example demo_create :
  createSession Demo.env0 Demo.alice None empty_world =
  (Ret (json 200 (BSession Demo.fresh_session)),
   {| db := [Demo.fresh_session]; trace := [EvCreate Demo.oid] |}).
Proof. vm_compute. reflexivity. Qed.

Example demo_unauthenticated :
  handle isValid24 cast24 verify_plain Demo.env0 (Some (lit "alice"))
         (GET_session Demo.sid) Demo.w1 =
  (Ret (json 401 (BError (lit "Missing or invalid Authorization header"))),
   Demo.w1).
Proof. vm_compute. reflexivity. Qed.

Lemma demo_ready (input : str) :
  input <> [] ->
  relay_ready isValid24 cast24 Demo.w1 Demo.sid Demo.alice input Demo.oid
              Demo.fresh_session.
Proof.
  intros Hi. constructor; try reflexivity; try exact Hi.
  vm_compute. discriminate.
Defined.

Lemma lit_Hello_nonempty : lit "Hello" <> [].
Proof. vm_compute. discriminate. Defined.

Lemma relay_malformed_session_id_witness :
  isValid24 (lit "abc") = false /\
  exists error,
    relay isValid24 cast24 Demo.env0 (lit "abc") Demo.alice (lit "Hello")
          Demo.w1 =
    (Ret (json 400 (BError error)), Demo.w1) /\
    (lit "Hello" <> [] -> lit "abc" <> [] ->
     error = lit "Invalid session ID format").
Proof.
  split; [reflexivity|].
  apply (relay_malformed_session_id isValid24 cast24 Demo.env0 (lit "abc")
           Demo.alice (lit "Hello") Demo.w1).
  reflexivity.
Defined.

Lemma relay_echo_without_credential_witness :
  relay isValid24 cast24 Demo.env0 Demo.sid Demo.alice (lit "Hello") Demo.w1 =
  (Ret (json 200 (BReply (echo_reply (lit "Hello")))),
   {| db := db Demo.w1; trace := trace Demo.w1 ++ [EvFindById Demo.sid] |}).
Proof.
  apply (relay_echo_without_credential Demo.env0
           (demo_ready lit_Hello_nonempty)).
  reflexivity.
Defined.

Lemma relay_provider_failure_witness :
  (exists resp,
     relay isValid24 cast24 Demo.denied Demo.sid Demo.alice (lit "Hello")
           Demo.w1 =
     (Ret resp,
      after_fetch Demo.denied Demo.w1 Demo.sid (lit "key") (lit "Hello")) /\
     db (after_fetch Demo.denied Demo.w1 Demo.sid (lit "key") (lit "Hello")) =
       db Demo.w1 /\
     code resp = 502%Z /\
     revealed_upstreamStatus resp = Some 403%Z /\
     revealed_hint resp =
       upstream_hint (MODEL_NAME Demo.denied) 403 (lit "quota") /\
     body resp = BUpstream (lit "Upstream API error") 403 (lit "quota")
                   (upstream_hint (MODEL_NAME Demo.denied) 403 (lit "quota"))) /\
  (exists resp,
     relay isValid24 cast24 Demo.mute Demo.sid Demo.alice (lit "Hello")
           Demo.w1 =
     (Ret resp,
      after_fetch Demo.mute Demo.w1 Demo.sid (lit "key") (lit "Hello")) /\
     db (after_fetch Demo.mute Demo.w1 Demo.sid (lit "key") (lit "Hello")) =
       db Demo.w1 /\
     code resp = 502%Z /\
     body resp = BMalformed
       (lit "The model returned a response, but I couldn't find the text or reason for failure.")
       {| candidateText := None; blockReason := None |}).
Proof.
  split.
  - apply (proj1 (relay_provider_failure Demo.denied
                    (r := Demo.fails 403 (lit "quota"))
                    (demo_ready lit_Hello_nonempty) eq_refl eq_refl)).
    reflexivity.
  - apply (proj2 (relay_provider_failure Demo.mute (r := Demo.silent)
                    (demo_ready lit_Hello_nonempty) eq_refl eq_refl));
      reflexivity.
Defined.

Lemma session_access_and_delete_witness :
  getSession cast24 Demo.sid Demo.bob Demo.w1 =
    (Ret (json 403 (BError (lit "Forbidden"))),
     {| db := [Demo.fresh_session]; trace := [EvFindById Demo.sid] |}) /\
  deleteSession cast24 Demo.sid Demo.bob Demo.w1 =
    (Ret (json 403 (BError (lit "Forbidden"))),
     {| db := [Demo.fresh_session]; trace := [EvFindById Demo.sid] |}) /\
  getSession cast24 Demo.sid Demo.alice Demo.w1 =
    (Ret (json 200 (BSession Demo.fresh_session)),
     {| db := [Demo.fresh_session]; trace := [EvFindById Demo.sid] |}) /\
  exists w' w'',
    deleteSession cast24 Demo.sid Demo.alice Demo.w1 =
      (Ret (json 200 (BMessage (lit "Chat session deleted successfully"))),
       w') /\
    db w' = remove_first Demo.oid (db Demo.w1) /\
    lookup Demo.oid (db w') = None /\
    deleteSession cast24 Demo.sid Demo.alice w' =
      (Ret (json 404 (BError (lit "Chat session not found"))), w'') /\
    db w'' = db w'.
Proof.
  assert (NoDup (ids (db Demo.w1))) as ND.
  { repeat constructor. simpl. tauto. }
  assert (cast24 Demo.sid = inr Demo.oid) as Hc by reflexivity.
  assert (Demo.bob <> Demo.alice) as Hne by (vm_compute; discriminate).
  destruct (@session_access_and_delete cast24 Demo.sid Demo.bob Demo.oid
              Demo.w1 Hc ND)
    as (_ & Hforbidden & _).
  destruct (@session_access_and_delete cast24 Demo.sid Demo.alice Demo.oid
              Demo.w1 Hc ND)
    as (_ & _ & Howner).
  destruct (Hforbidden Demo.fresh_session eq_refl
              (fun E => Hne (eq_sym E))) as [G D].
  destruct (Howner Demo.fresh_session eq_refl eq_refl) as [G' D'].
  repeat split; assumption.
Defined.

(** *** Where the routes part from their description *)

(** Without a provider credential the first "Hello" of a new session is
    answered with the echo, and the session still holds no message and its
    default title. *)
Lemma echo_relay_persists_nothing :
  GEMINI_API_KEY Demo.env0 = None /\
  List.map messages (db Demo.created) = [[]] /\
  fst (relay isValid24 cast24 Demo.env0 Demo.sid Demo.alice (lit "Hello")
             Demo.created) =
    Ret (json 200 (BReply (echo_reply (lit "Hello")))) /\
  List.map (fun s => List.length (messages s))
    (db (snd (relay isValid24 cast24 Demo.env0 Demo.sid Demo.alice
                    (lit "Hello") Demo.created))) = [0%nat] /\
  List.map title
    (db (snd (relay isValid24 cast24 Demo.env0 Demo.sid Demo.alice
                    (lit "Hello") Demo.created))) = [lit "New Chat"] /\
  derive_title (lit "Hello") <> lit "New Chat".
Proof.
  vm_compute. repeat split; try reflexivity. discriminate.
Qed.

(** An utterance of three spaces is not rejected: it is sent to the
    provider and persisted like any other. *)
Lemma relay_whitespace_accepted :
  whitespace_only (lit "   ") = true /\
  fst (relay isValid24 cast24 Demo.answering Demo.sid Demo.alice (lit "   ")
             Demo.w1) = Ret (json 200 (BReply (lit "Hi"))) /\
  List.map messages
    (db (snd (relay isValid24 cast24 Demo.answering Demo.sid Demo.alice
                    (lit "   ") Demo.w1))) =
    [exchange (lit "   ") (lit "Hi")] /\
  existsb is_fetch
    (trace (snd (relay isValid24 cast24 Demo.answering Demo.sid Demo.alice
                       (lit "   ") Demo.w1))) = true.
Proof. vm_compute. repeat split. Qed.

(** The share link, followed without any credential, answers with the
    whole session, its owner included. *)
Lemma share_link_reveals_owner :
  exists s,
    fst (handle isValid24 cast24 verify_plain Demo.env0 None
                (GET_share Demo.token0) Demo.shared) =
      Ret (json 200 (BSession s)) /\
    revealed_owner (json 200 (BSession s)) = Some Demo.alice /\
    title s = lit "New Chat" /\ shareToken s = Some Demo.token0.
Proof.
  vm_compute. eexists. repeat split.
Qed.

(** C8: reading or deleting under an identifier that is no ObjectId
    answers 500 and not 404, although no session has that identifier: the
    failed cast of the identifier lands in the route's catch-all. *)
Theorem session_malformed_id_not_404 :
  db empty_world = [] /\
  fst (getSession cast24 (lit "abc") Demo.alice empty_world) =
    Ret (json 500 (BError (lit "Error fetching chat session"))) /\
  fst (deleteSession cast24 (lit "abc") Demo.alice empty_world) =
    Ret (json 500 (BError (lit "Error deleting chat session"))) /\
  fst (relay isValid24 cast24 Demo.env0 (lit "abc") Demo.alice (lit "Hello")
             empty_world) =
    Ret (json 400 (BError (lit "Invalid session ID format"))).
Proof.
  vm_compute. repeat split.
Qed.

(** C2: on the first exchange of a session the provider declines with the
    reason SAFETY: the relay answers the block notice, appends the
    user/assistant pair and refreshes [lastUpdated], and leaves the title
    at its default, although the utterance would give the title Hello. *)
Theorem relay_blocked_first_exchange :
  fst (relay isValid24 cast24 Demo.declining Demo.sid Demo.alice (lit "Hello")
             Demo.w1) = Ret (json 200 (BReply Demo.notice)) /\
  db (snd (relay isValid24 cast24 Demo.declining Demo.sid Demo.alice
                 (lit "Hello") Demo.w1)) =
    [ {| _id := Demo.oid; owner := Demo.alice; title := lit "New Chat";
         messages := exchange (lit "Hello") Demo.notice;
         shareToken := None; lastUpdated := 2000 |} ] /\
  derive_title (lit "Hello") = lit "Hello".
Proof. vm_compute. repeat split. Qed.

(** C5: two appends that each leave a session with two messages: the one
    of a text answer sets the title to the utterance (cut at 50 code units,
    with the ellipsis only when longer), the one of a block notice leaves
    the title as it was. *)
Theorem title_after_first_append :
  Demo.titles Demo.answering (lit "Hello") = [(2%nat, lit "Hello")] /\
  Demo.titles Demo.answering Demo.long =
    [(2%nat, repeat 97%N 50 ++ lit "...")] /\
  Demo.titles Demo.declining (lit "Hello") = [(2%nat, lit "New Chat")] /\
  Demo.titles Demo.declining Demo.long = [(2%nat, lit "New Chat")].
Proof. vm_compute. repeat split. Qed.

(** ** The relay, branch by branch *)

Section RelayBranches.

Variable ObjectId_isValid : str -> bool.
Variable castObjectId : str -> Exn + N.

Lemma world_eta (w : World) :
  w = {| db := db w; trace := trace w ++ [] |}.
Proof. destruct w. cbn [db trace]. rewrite app_nil_r. reflexivity. Qed.

(** Every relay call takes exactly one of the branches. *)
Lemma relay_outcome (env : Env) (sessionId userId input : str) (w : World) :
  exists resp d' evs,
    relay ObjectId_isValid castObjectId env sessionId userId input w =
    (Ret resp, {| db := d'; trace := trace w ++ evs |}) /\
    relay_case ObjectId_isValid castObjectId env sessionId userId input w
               resp d' evs.
Proof.
  destruct (is_empty input) eqn:Ei.
  { do 3 eexists. split.
    - unfold relay. rewrite Ei. unfold ret. rewrite (world_eta w) at 1.
      reflexivity.
    - apply RC_missing_input. destruct input; [reflexivity | discriminate]. }
  assert (input <> []) as Hi by (intros ->; discriminate).
  destruct (is_empty sessionId) eqn:Es.
  { do 3 eexists. split.
    - unfold relay. rewrite Ei, Es. unfold ret. rewrite (world_eta w) at 1.
      reflexivity.
    - apply RC_missing_session; [exact Hi|].
      destruct sessionId; [reflexivity | discriminate]. }
  assert (sessionId <> []) as Hs by (intros ->; discriminate).
  destruct (ObjectId_isValid sessionId) eqn:Ev.
  2:{ do 3 eexists. split.
      - unfold relay. rewrite Ei, Es, Ev. unfold try_catch, bind, ret.
        cbn [negb]. rewrite (world_eta w) at 1. reflexivity.
      - apply RC_invalid_id; assumption. }
  destruct (castObjectId sessionId) as [e|id] eqn:Ec.
  { do 3 eexists. split.
    - run_route. rewrite Ei, Es, Ev, Ec. cbn [negb]. reflexivity.
    - apply RC_cast_error; assumption. }
  destruct (lookup id (db w)) as [s|] eqn:El.
  2:{ do 3 eexists. split.
      - run_route. rewrite Ei, Es, Ev, Ec. cbn [negb db]. rewrite El.
        reflexivity.
      - apply RC_not_found with (id := id); assumption. }
  destruct (str_eqb (owner s) userId) eqn:Eo.
  2:{ do 3 eexists. split.
      - run_route. rewrite Ei, Es, Ev, Ec. cbn [negb db]. rewrite El, Eo.
        reflexivity.
      - apply RC_forbidden with (id := id) (s := s); try assumption.
        intros E. apply str_eqb_eq in E. congruence. }
  assert (relay_ready ObjectId_isValid castObjectId w sessionId userId input
            id s) as Hr.
  { constructor; auto. apply str_eqb_eq. exact Eo. }
  destruct (truthy (GEMINI_API_KEY env)) as [apiKey|] eqn:Ek.
  2:{ do 3 eexists. split.
      - rewrite (relay_ready_run env Hr), Ek. reflexivity.
      - eapply RC_echo; eassumption. }
  destruct (fetch env (provider_request env apiKey input)) as [e|r] eqn:Ef.
  { do 3 eexists. split.
    - rewrite (relay_ready_run env Hr), Ek. run_route. rewrite Ef.
      rewrite <- app_assoc. reflexivity.
    - eapply RC_fetch_rejects; eassumption. }
  destruct (ok r) eqn:Eok.
  2:{ do 3 eexists. split.
      - rewrite (relay_upstream_run env Hr Ek Ef Eok). reflexivity.
      - eapply RC_upstream; eassumption. }
  destruct (bodyJson r) as [e|data] eqn:Ej.
  { do 3 eexists. split.
    - rewrite (relay_ready_run env Hr), Ek. run_route. rewrite Ef, Eok, Ej.
      rewrite <- app_assoc. reflexivity.
    - eapply RC_json_throws; eassumption. }
  destruct (truthy (candidateText data)) as [reply|] eqn:Ect.
  { do 3 eexists. split.
    - rewrite (relay_ready_run env Hr), Ek. run_route.
      rewrite Ef, Eok, Ej. cbn [negb]. rewrite Ect, Ec. cbn [db trace].
      rewrite lookup_update_first by (intros; apply apply_update_id).
      rewrite N.eqb_refl, El. cbn [option_map apply_update messages].
      rewrite length_app. cbn [exchange List.length].
      instantiate (1 := reply_events env sessionId apiKey input reply
                          (List.length (messages s) =? 0)%nat).
      instantiate (1 := effect_db
                          (if (List.length (messages s) =? 0)%nat
                           then AppendedTitled id input reply (now env)
                           else Appended id input reply (now env)) (db w)).
      unfold reply_events.
      destruct (List.length (messages s)) as [|n].
      + cbn [Nat.add Nat.eqb db trace effect_db].
        rewrite <- !app_assoc. reflexivity.
      + replace (S n + 2 =? 2)%nat with false
          by (symmetry; apply Nat.eqb_neq; lia).
        cbn [Nat.eqb effect_db]. rewrite app_nil_r, <- !app_assoc.
        reflexivity.
    - eapply RC_reply; eassumption. }
  destruct (truthy (blockReason data)) as [reason|] eqn:Eb.
  { do 3 eexists. split.
    - rewrite (relay_ready_run env Hr), Ek. run_route.
      rewrite Ef, Eok, Ej. cbn [negb]. rewrite Ect, Eb, Ec.
      cbn [db trace]. rewrite <- !app_assoc. reflexivity.
    - eapply RC_blocked; eassumption. }
  do 3 eexists. split.
  - rewrite (relay_malformed_run env Hr Ek Ef Eok Ej Ect Eb). reflexivity.
  - eapply RC_malformed; eassumption.
Qed.

End RelayBranches.

Section RelayGuarantees.

Variable ObjectId_isValid : str -> bool.
Variable castObjectId : str -> Exn + N.

(** X4: a relay call on a well-formed identifier answers 404 when no
    session has it and 403 when the caller is not its owner, whatever the
    provider configuration; in both cases only the lookup is recorded, so
    the collection is unchanged and the provider is not called. *)
Theorem relay_unauthorized (env : Env) (sessionId userId input : str)
  (id : N) (w : World) :
  input <> [] -> sessionId <> [] ->
  ObjectId_isValid sessionId = true -> castObjectId sessionId = inr id ->
  let seen := {| db := db w; trace := trace w ++ [EvFindById sessionId] |} in
  (lookup id (db w) = None ->
   relay ObjectId_isValid castObjectId env sessionId userId input w =
   (Ret (json 404 (BError (lit "Chat session not found"))), seen)) /\
  (forall s, lookup id (db w) = Some s -> owner s <> userId ->
   relay ObjectId_isValid castObjectId env sessionId userId input w =
   (Ret (json 403 (BError (lit "Forbidden"))), seen)).
Proof.
  intros Hi Hs Hv Hc seen. split.
  - intros Hl. run_route.
    rewrite (is_empty_false Hi), (is_empty_false Hs), Hv, Hc.
    cbn [negb db]. rewrite Hl. reflexivity.
  - intros s Hl Ho. run_route.
    rewrite (is_empty_false Hi), (is_empty_false Hs), Hv, Hc.
    cbn [negb db]. rewrite Hl, (str_eqb_neq Ho). reflexivity.
Qed.

(** X5: a relay call makes at most one provider call, and makes it only
    for a stored session that the caller owns, with a credential
    configured; the request then carries that credential and the utterance
    behind the fixed plain-text instruction. *)
Theorem relay_provider_calls (env : Env) (sessionId userId input : str)
  (w : World) :
  exists resp d' evs,
    relay ObjectId_isValid castObjectId env sessionId userId input w =
    (Ret resp, {| db := d'; trace := trace w ++ evs |}) /\
    (filter is_fetch evs = [] \/
     exists apiKey id s,
       relay_ready ObjectId_isValid castObjectId w sessionId userId input
                   id s /\
       truthy (GEMINI_API_KEY env) = Some apiKey /\
       filter is_fetch evs =
         [EvFetch {| endpoint := endpoint (provider_request env apiKey input);
                     x_goog_api_key := apiKey;
                     promptText := system_instruction ++ input |}]).
Proof.
  destruct (relay_outcome ObjectId_isValid castObjectId env sessionId userId
              input w) as (resp & d' & evs & E & C).
  exists resp, d', evs. split; [exact E|].
  destruct C; try (left; reflexivity);
    right; exists apiKey, id, s;
    (split; [assumption | split; [assumption|]]); try reflexivity.
  unfold reply_events. destruct (List.length (messages s) =? 0)%nat;
    reflexivity.
Qed.

(** X6: when the provider call itself fails (the fetch rejects, or the
    success answer is no JSON), the relay answers 500 with the error as
    text and the collection is unchanged. *)
Theorem relay_transport_failure (env : Env) (w : World)
  (sessionId userId input apiKey : str) (id : N) (s : Session) :
  relay_ready ObjectId_isValid castObjectId w sessionId userId input id s ->
  truthy (GEMINI_API_KEY env) = Some apiKey ->
  (forall e,
     fetch env (provider_request env apiKey input) = FetchRejects e ->
     relay ObjectId_isValid castObjectId env sessionId userId input w =
     (Ret (json 500 (BError (String_of e))),
      after_fetch env w sessionId apiKey input)) /\
  (forall r e,
     fetch env (provider_request env apiKey input) = FetchResolves r ->
     ok r = true -> bodyJson r = inl e ->
     relay ObjectId_isValid castObjectId env sessionId userId input w =
     (Ret (json 500 (BError (String_of e))),
      after_fetch env w sessionId apiKey input)).
Proof.
  intros Hr Hk. split.
  - intros e Hf. rewrite (relay_ready_run env Hr), Hk. run_route.
    rewrite Hf. unfold after_fetch. rewrite <- app_assoc. reflexivity.
  - intros r e Hf Hok Hj. rewrite (relay_ready_run env Hr), Hk. run_route.
    rewrite Hf, Hok, Hj. unfold after_fetch. rewrite <- app_assoc.
    reflexivity.
Qed.

End RelayGuarantees.

(** ** Authentication of requests *)

Lemma startsWith_app (s p : str) :
  startsWith s p = true <-> exists rest, s = p ++ rest.
Proof.
  revert s. induction p as [|x p IH]; intros s.
  - destruct s; simpl; split; eauto.
  - destruct s as [|y s]; simpl.
    + split; [discriminate | intros (r & H); discriminate].
    + rewrite andb_true_iff, N.eqb_eq, IH. split.
      * intros [-> (r & ->)]. eauto.
      * intros (r & H). inversion H. eauto.
Qed.

Lemma split_acc_head (sep : N) (cur s : str) :
  nth_error (split_acc sep cur s) 0 = Some (rev cur ++ before sep s).
Proof.
  revert cur. induction s as [|c s IH]; intros cur; cbn [split_acc before].
  - rewrite app_nil_r. reflexivity.
  - destruct (N.eqb c sep).
    + cbn [nth_error]. rewrite app_nil_r. reflexivity.
    + rewrite IH. cbn [rev]. rewrite <- app_assoc. reflexivity.
Qed.

Lemma before_without (sep : N) (s : str) :
  ~ In sep s -> before sep s = s.
Proof.
  induction s as [|c s IH]; simpl; intros H; [reflexivity|].
  destruct (N.eqb c sep) eqn:E.
  - apply N.eqb_eq in E. exfalso. apply H. left. exact E.
  - rewrite IH; [reflexivity | tauto].
Qed.

Lemma before_has_no_sep (sep : N) (s : str) : ~ In sep (before sep s).
Proof.
  induction s as [|c s IH]; simpl; [tauto|].
  destruct (N.eqb c sep) eqn:E; simpl; [tauto|].
  apply N.eqb_neq in E. intros [H|H]; [congruence | tauto].
Qed.

Lemma bearer_token_bearer (rest : str) :
  bearer_token (Some (lit "Bearer " ++ rest)) = Some (before space rest).
Proof.
  unfold bearer_token.
  assert (startsWith (lit "Bearer " ++ rest) (lit "Bearer ") = true) as ->
    by (apply startsWith_app; eauto).
  change (lit "Bearer ") with [66; 101; 97; 114; 101; 114; 32]%N.
  cbn [app is_empty orb negb]. unfold split, space.
  cbn [split_acc N.eqb Pos.eqb rev app nth_error].
  exact (split_acc_head 32 [] rest).
Qed.

Section Requests.

Variable ObjectId_isValid : str -> bool.
Variable castObjectId : str -> Exn + N.
Variable jwt_verify : str -> option Claims.

(** The middleware runs the route as the caller, or answers 401 and
    leaves everything as it was. *)
Lemma authMiddleware_caller (authorization : option str)
  (next : str -> M Response) (w : World) :
  match caller jwt_verify authorization with
  | Some userId => authMiddleware jwt_verify authorization next w = next userId w
  | None =>
    exists error,
      authMiddleware jwt_verify authorization next w =
      (Ret (json 401 (BError error)), w)
  end.
Proof.
  unfold caller, bearer_token, authMiddleware.
  destruct authorization as [auth|]; [|eexists; reflexivity].
  destruct (is_empty auth || negb (startsWith auth (lit "Bearer ")));
    [eexists; reflexivity|].
  destruct (nth_error (split space auth) 1) as [token|];
    [|eexists; reflexivity].
  destruct (jwt_verify token) as [payload|]; [reflexivity|].
  eexists; reflexivity.
Qed.

(** X1: the middleware reads the token of a header [Bearer <rest>] as the
    part of [rest] before its first space: the route runs as the [sub] of
    that token when it verifies, and otherwise the answer is 401 'Invalid
    token'; a header that is absent or does not start with 'Bearer ' is
    answered 401 'Missing or invalid Authorization header'. In both 401
    cases nothing is run or changed. *)
Theorem authMiddleware_bearer (next : str -> M Response) (w : World) :
  (forall rest,
     authMiddleware jwt_verify (Some (lit "Bearer " ++ rest)) next w =
     match jwt_verify (before space rest) with
     | Some payload => next (sub payload) w
     | None => (Ret (json 401 (BError (lit "Invalid token"))), w)
     end) /\
  (forall auth,
     startsWith auth (lit "Bearer ") = false ->
     authMiddleware jwt_verify (Some auth) next w =
     (Ret (json 401 (BError (lit "Missing or invalid Authorization header"))),
      w)) /\
  authMiddleware jwt_verify None next w =
  (Ret (json 401 (BError (lit "Missing or invalid Authorization header"))), w).
Proof.
  split; [|split].
  - intros rest. pose proof (bearer_token_bearer rest) as Hb.
    unfold bearer_token in Hb. unfold authMiddleware.
    destruct (is_empty (lit "Bearer " ++ rest)
              || negb (startsWith (lit "Bearer " ++ rest) (lit "Bearer ")));
      [discriminate|].
    rewrite Hb. destruct (jwt_verify (before space rest)); reflexivity.
  - intros auth H. unfold authMiddleware. rewrite H. cbn [negb].
    rewrite orb_true_r. reflexivity.
  - reflexivity.
Qed.

Lemma lookup_app_left (id : N) (d d' : list Session) (s : Session) :
  lookup id d = Some s -> lookup id (d ++ d') = Some s.
Proof.
  unfold lookup. induction d as [|x d IH]; simpl; [discriminate|].
  destruct (has_id id x); auto.
Qed.

(** Every request is answered, and what it writes is a session of the
    caller's. *)
Lemma handle_touches_own (env : Env) (authorization : option str)
  (r : Route) (w : World) :
  exists eff resp t',
    handle ObjectId_isValid castObjectId jwt_verify env authorization r w =
    (Ret resp, {| db := effect_db eff (db w); trace := t' |}) /\
    touches_own (db w) (caller jwt_verify authorization) eff.
Proof.
  assert (forall m : str -> M Response,
    (forall userId, exists eff resp t',
        m userId w = (Ret resp, {| db := effect_db eff (db w); trace := t' |}) /\
        touches_own (db w) (Some userId) eff) ->
    exists eff resp t',
      authMiddleware jwt_verify authorization m w =
      (Ret resp, {| db := effect_db eff (db w); trace := t' |}) /\
      touches_own (db w) (caller jwt_verify authorization) eff) as Hauth.
  { intros m Hm. pose proof (authMiddleware_caller authorization m w) as H.
    destruct (caller jwt_verify authorization) as [userId|].
    - rewrite H. apply Hm.
    - destruct H as (error & ->). exists Unchanged. destruct w.
      do 2 eexists. split; [reflexivity | exact I]. }
  destruct r as [t|sid|sid|p h sid|token|sid input]; cbn [handle];
    try apply Hauth; intros.
  - (* create *)
    unfold createSession, create, try_catch, bind, ret, throw, log,
      get_db, put_db.
    cbn [db trace _id].
    destruct (lookup (newObjectId env) (db w)) eqn:El.
    + exists Unchanged. do 2 eexists. split; [reflexivity | exact I].
    + eexists (Created _). do 2 eexists. split; [reflexivity|].
      split; [exact El | reflexivity].
  - (* get *)
    exists Unchanged. destruct (castObjectId sid) as [e|id] eqn:Hc.
    + unfold getSession, try_catch, bind.
      rewrite findById_throws with (e := e) by exact Hc.
      do 2 eexists. split; [reflexivity | exact I].
    + rewrite getSession_run with (id := id) by exact Hc.
      do 2 eexists. split; [reflexivity | exact I].
  - (* delete *)
    destruct (castObjectId sid) as [e|id] eqn:Hc.
    + exists Unchanged. unfold deleteSession, try_catch, bind.
      rewrite findById_throws with (e := e) by exact Hc.
      do 2 eexists. split; [reflexivity | exact I].
    + rewrite deleteSession_run with (id := id) by exact Hc.
      destruct (lookup id (db w)) as [s|] eqn:El.
      * destruct (str_eqb (owner s) userId) eqn:Eo.
        -- exists (Deleted id). do 2 eexists. split; [reflexivity|].
           exists s. apply str_eqb_eq in Eo. subst. auto.
        -- exists Unchanged. do 2 eexists. split; [reflexivity | exact I].
      * exists Unchanged. do 2 eexists. split; [reflexivity | exact I].
  - (* share *)
    destruct (castObjectId sid) as [e|id] eqn:Hc.
    + exists Unchanged. unfold issueShareToken, try_catch, bind.
      rewrite findById_throws with (e := e) by exact Hc.
      do 2 eexists. split; [reflexivity | exact I].
    + rewrite issueShareToken_run with (id := id) by exact Hc.
      destruct (lookup id (db w)) as [s|] eqn:El.
      * destruct (str_eqb (owner s) userId) eqn:Eo.
        -- exists (Shared id (toString_hex (randomBytes env 16))).
           do 2 eexists. split; [reflexivity|].
           exists s. apply str_eqb_eq in Eo. subst. auto.
        -- exists Unchanged. do 2 eexists. split; [reflexivity | exact I].
      * exists Unchanged. do 2 eexists. split; [reflexivity | exact I].
  - (* share link *)
    exists Unchanged. rewrite getByShareToken_run. do 2 eexists.
    split; [reflexivity | exact I].
  - (* relay *)
    destruct (relay_outcome ObjectId_isValid castObjectId env sid userId
                input w) as (resp & d' & evs & E & C).
    rewrite E.
    destruct C; try (exists Unchanged; do 2 eexists;
                     split; [reflexivity | exact I]).
    + destruct H as [_ _ _ Hc Hl Ho]. eexists. do 2 eexists.
      split; [reflexivity|].
      destruct (List.length (messages s) =? 0)%nat; exists s; subst; auto.
    + destruct H as [_ _ _ Hc Hl Ho]. eexists. do 2 eexists.
      split; [reflexivity|]. exists s. subst. auto.
Qed.

(** X2: a request that [authMiddleware] does not let through (no header,
    no 'Bearer ' prefix, a token that does not verify) is answered 401 on
    every route but the share link, and nothing is read, called or
    changed. *)
Theorem unauthenticated_request_rejected (env : Env)
  (authorization : option str) (r : Route) (w : World) :
  caller jwt_verify authorization = None ->
  (forall token, r <> GET_share token) ->
  exists error,
    handle ObjectId_isValid castObjectId jwt_verify env authorization r w =
    (Ret (json 401 (BError error)), w).
Proof.
  intros Hc Hr.
  assert (forall m, exists error,
    authMiddleware jwt_verify authorization m w =
    (Ret (json 401 (BError error)), w)) as H.
  { intros m. pose proof (authMiddleware_caller authorization m w) as H.
    rewrite Hc in H. exact H. }
  destruct r; cbn [handle]; try apply H.
  exfalso. eapply Hr. reflexivity.
Qed.

(** X3: a stored session is untouched by every request that is not made as
    its owner: whatever the route, its arguments and the provider's
    behaviour, the session is afterwards stored exactly as before. *)
Theorem session_untouched_by_others (env : Env) (authorization : option str)
  (r : Route) (w : World) (s : Session) :
  NoDup (ids (db w)) -> In s (db w) ->
  caller jwt_verify authorization <> Some (owner s) ->
  lookup (_id s)
    (db (snd (handle ObjectId_isValid castObjectId jwt_verify env
                     authorization r w))) = Some s.
Proof.
  intros ND Hin Hother.
  pose proof (@lookup_in_nodup (db w) s ND Hin) as Hl.
  destruct (handle_touches_own env authorization r w)
    as (eff & resp & t' & -> & Hown).
  cbn [snd db].
  assert (forall id, own_target (db w) (caller jwt_verify authorization) id ->
            N.eqb (_id s) id = false) as Hne.
  { intros id (s0 & Hl0 & Hc). apply N.eqb_neq. intros <-.
    rewrite Hl in Hl0. inversion Hl0; subst. contradiction. }
  destruct eff; cbn [effect_db touches_own] in *.
  - exact Hl.
  - apply lookup_app_left. exact Hl.
  - rewrite lookup_remove_first by exact ND. rewrite (Hne _ Hown). exact Hl.
  - rewrite lookup_update_first by (intros; apply apply_update_id).
    rewrite (Hne _ Hown). exact Hl.
  - rewrite lookup_update_first by (intros; apply apply_update_id).
    rewrite (Hne _ Hown). exact Hl.
  - rewrite update_first_twice by (intros; apply apply_update_id).
    rewrite lookup_update_first by (intros; rewrite !apply_update_id; auto).
    rewrite (Hne _ Hown). exact Hl.
Qed.

End Requests.

(** ** Titles, hints and share links *)

(** X8: a title derived from an utterance never has more than 53 code
    units, starts with the same 50 code units as the utterance, and is the
    utterance itself unless the utterance has more than 50, in which case it
    is its first 50 followed by three dots. *)
Theorem derive_title_bounds (input : str) :
  (List.length (derive_title input) <= 53)%nat /\
  firstn 50 (derive_title input) = firstn 50 input /\
  ((List.length input <= 50)%nat /\ derive_title input = input \/
   (50 < List.length input)%nat /\
   derive_title input = firstn 50 input ++ lit "..." /\
   List.length (derive_title input) = 53%nat).
Proof.
  destruct (Nat.le_gt_cases (List.length input) 50) as [H|H].
  - rewrite (derive_title_short input H). repeat split; [lia|].
    left. split; [exact H | reflexivity].
  - destruct (derive_title_long input H) as [E L]. rewrite L, E.
    split; [lia|]. split.
    + rewrite firstn_app, firstn_firstn, length_firstn.
      replace (50 - Nat.min 50 (List.length input))%nat with 0%nat by lia.
      cbn [firstn]. rewrite app_nil_r. reflexivity.
    + right. rewrite <- E. auto.
Qed.

Lemma includes_spec (s sub : str) :
  includes s sub = true <-> exists pre post, s = pre ++ sub ++ post.
Proof.
  induction s as [|c s IH].
  - cbn [includes]. rewrite orb_false_r, startsWith_app. split.
    + intros (rest & ->). exists [], rest. reflexivity.
    + intros (pre & post & H). symmetry in H.
      apply app_eq_nil in H as [-> H]. eauto.
  - cbn [includes]. rewrite orb_true_iff, startsWith_app, IH. split.
    + intros [(rest & ->)|(pre & post & ->)].
      * exists [], rest. reflexivity.
      * exists (c :: pre), post. reflexivity.
    + intros ([|x pre] & post & H).
      * left. exists post. exact H.
      * right. inversion H. eauto.
Qed.

(** X9: an upstream failure gets a hint exactly when its status is 404 or
    403, or is 400 with API_KEY_INVALID somewhere in the body; every other
    status (a 429, a 5xx, a 400 for another reason) goes without. *)
Theorem upstream_hint_cases (model : str) (st : Z) (errorBody : str) :
  upstream_hint model st errorBody <> None <->
  st = 404%Z \/ st = 403%Z \/
  (st = 400%Z /\
   exists pre post, errorBody = pre ++ lit "API_KEY_INVALID" ++ post).
Proof.
  unfold upstream_hint.
  destruct (Z.eqb_spec st 404) as [->|H404];
    [split; [auto | discriminate]|].
  destruct (Z.eqb_spec st 403) as [->|H403];
    [split; [auto | discriminate]|].
  destruct (Z.eqb_spec st 400) as [->|H400]; cbn [andb].
  - destruct (includes errorBody (lit "API_KEY_INVALID")) eqn:E.
    + split; [|discriminate]. intros _. right. right. split; [reflexivity|].
      apply includes_spec. exact E.
    + split; [congruence|]. intros [H|[H|[_ H]]]; try discriminate.
      apply includes_spec in H. congruence.
  - split; [congruence|]. intros [H|[H|[H _]]]; contradiction.
Qed.

Lemma hex_of_byte_lower (b : byte) :
  forallb is_lower_hex (hex_of_byte b) = true.
Proof. destruct b; vm_compute; reflexivity. Qed.

Lemma toString_hex_lower (bs : list byte) :
  forallb is_lower_hex (toString_hex bs) = true.
Proof.
  unfold toString_hex. induction bs as [|b bs IH]; [reflexivity|].
  cbn [flat_map]. rewrite forallb_app, hex_of_byte_lower, IH. reflexivity.
Qed.

Lemma lookup_app_right (id : N) (d : list Session) (s : Session) :
  lookup id d = None -> _id s = id -> lookup id (d ++ [s]) = Some s.
Proof.
  unfold lookup. induction d as [|x d IH]; simpl; intros Hn Hs.
  - unfold has_id. rewrite Hs, N.eqb_refl. reflexivity.
  - destruct (has_id id x); [discriminate | auto].
Qed.

Section SessionRoutes.

Variable castObjectId : str -> Exn + N.

(** X10: the owner's share request answers a token of 32 lowercase
    hexadecimal digits (two per random byte) and the URL made of the base
    address, '/share/' and the token, the base address being APP_URL when
    it is set and not empty and the request's protocol and host
    otherwise. *)
Theorem share_link_format (env : Env) (protocol host sessionId userId : str)
  (id : N) (s : Session) (w : World) :
  castObjectId sessionId = inr id ->
  lookup id (db w) = Some s -> owner s = userId ->
  List.length (randomBytes env 16) = 16%nat ->
  exists token,
    fst (issueShareToken castObjectId env protocol host sessionId userId w) =
      Ret (json 200 (BShare token
             (match truthy (APP_URL env) with
              | Some base => base
              | None => protocol ++ lit "://" ++ host
              end ++ lit "/share/" ++ token))) /\
    List.length token = 32%nat /\
    forallb is_lower_hex token = true.
Proof.
  intros Hc Hl Ho Hlen. exists (toString_hex (randomBytes env 16)).
  rewrite issueShareToken_run with (id := id) by exact Hc.
  rewrite Hl, Ho, str_eqb_refl. cbn [fst]. split; [|split].
  - unfold or_default, truthy. destruct (APP_URL env) as [[|c u]|];
      reflexivity.
  - rewrite toString_hex_length, Hlen. reflexivity.
  - apply toString_hex_lower.
Qed.

(** X11: creating a session under an identifier not yet in use stores a
    session owned by the caller, without messages or share token, titled
    with the given title or 'New Chat' when none or an empty one is given;
    reading it back under its identifier answers that session to its owner
    and 403 to anyone else. *)
Theorem created_session_read_back (env : Env) (userId sessionId : str)
  (title_ : option str) (w : World) :
  lookup (newObjectId env) (db w) = None ->
  castObjectId sessionId = inr (newObjectId env) ->
  exists s w',
    createSession env userId title_ w = (Ret (json 200 (BSession s)), w') /\
    db w' = db w ++ [s] /\
    _id s = newObjectId env /\ owner s = userId /\ messages s = [] /\
    shareToken s = None /\
    title s = match truthy title_ with
              | Some t => t
              | None => lit "New Chat"
              end /\
    fst (getSession castObjectId sessionId userId w') =
      Ret (json 200 (BSession s)) /\
    forall other, other <> userId ->
      fst (getSession castObjectId sessionId other w') =
        Ret (json 403 (BError (lit "Forbidden"))).
Proof.
  intros Hfresh Hc.
  unfold createSession, create, try_catch, bind, ret, throw, log, get_db,
    put_db.
  cbn [db trace _id]. rewrite Hfresh. do 2 eexists.
  split; [reflexivity|]. cbn [db _id owner messages shareToken title].
  repeat split.
  - unfold or_default, truthy. destruct title_ as [[|c t]|]; reflexivity.
  - rewrite getSession_run with (id := newObjectId env) by exact Hc.
    cbn [db fst]. rewrite lookup_app_right by (auto; reflexivity).
    cbn [owner]. rewrite str_eqb_refl. reflexivity.
  - intros other Hne.
    rewrite getSession_run with (id := newObjectId env) by exact Hc.
    cbn [db fst]. rewrite lookup_app_right by (auto; reflexivity).
    cbn [owner]. rewrite str_eqb_neq by congruence. reflexivity.
Qed.

End SessionRoutes.

(** ** The list of sessions *)

Lemma insert_desc_perm (s : Session) (l : list Session) :
  Permutation (insert_desc s l) (s :: l).
Proof.
  induction l as [|x l IH]; simpl; [reflexivity|].
  destruct (lastUpdated x <=? lastUpdated s)%Z; [reflexivity|].
  rewrite IH. apply perm_swap.
Qed.

Lemma sort_lastUpdated_desc_perm (l : list Session) :
  Permutation (sort_lastUpdated_desc l) l.
Proof.
  induction l as [|x l IH]; simpl; [reflexivity|].
  rewrite insert_desc_perm, IH. reflexivity.
Qed.

Lemma insert_desc_sorted (s : Session) (l : list Session) :
  Sorted newer_first l -> Sorted newer_first (insert_desc s l).
Proof.
  induction l as [|x l IH]; simpl; intros Hs.
  - repeat constructor.
  - destruct (lastUpdated x <=? lastUpdated s)%Z eqn:E.
    + constructor; [exact Hs|]. constructor. apply Z.leb_le. exact E.
    + apply Z.leb_gt in E. inversion Hs as [|? ? Hl Hh]; subst.
      constructor; [apply IH; exact Hl|].
      destruct l as [|y l]; simpl.
      * constructor. unfold newer_first. lia.
      * destruct (lastUpdated y <=? lastUpdated s)%Z.
        -- constructor. unfold newer_first. lia.
        -- inversion Hh; subst. constructor. assumption.
Qed.

Lemma sort_lastUpdated_desc_sorted (l : list Session) :
  Sorted newer_first (sort_lastUpdated_desc l).
Proof.
  induction l as [|x l IH]; simpl; [constructor|].
  apply insert_desc_sorted. exact IH.
Qed.

Lemma owned_by_true (userId : str) (s : Session) :
  owned_by userId s = true <-> owner s = userId.
Proof. unfold owned_by. apply str_eqb_eq. Qed.

(** X12: the list of sessions answers exactly the sessions owned by the
    caller, each once, ordered by [lastUpdated] from the most recent, and
    leaves the collection as it was. *)
Theorem listSessions_owned_sorted (userId : str) (w : World) :
  exists l,
    listSessions userId w = (Ret (200%Z, LSessions l), w) /\
    Permutation l (filter (owned_by userId) (db w)) /\
    Sorted newer_first l /\
    (forall s, In s l <-> In s (db w) /\ owner s = userId).
Proof.
  exists (sort_lastUpdated_desc (filter (owned_by userId) (db w))).
  split; [reflexivity|]. split; [apply sort_lastUpdated_desc_perm|].
  split; [apply sort_lastUpdated_desc_sorted|].
  intros s. rewrite <- owned_by_true, <- filter_In. split.
  - apply Permutation_in. apply sort_lastUpdated_desc_perm.
  - apply Permutation_in. symmetry. apply sort_lastUpdated_desc_perm.
Qed.

Lemma in_insert_desc (s x : Session) (l : list Session) :
  In x (insert_desc s l) -> x = s \/ In x l.
Proof.
  intros H. apply (Permutation_in _ (insert_desc_perm s l)) in H.
  destruct H; auto.
Qed.

(** A session strictly more recent than all the others heads the list. *)
Lemma sort_head_latest (x : Session) (l : list Session) :
  In x l ->
  (forall y, In y l -> y = x \/ (lastUpdated y < lastUpdated x)%Z) ->
  exists rest, sort_lastUpdated_desc l = x :: rest.
Proof.
  intros Hin Hall.
  assert ((exists rest, sort_lastUpdated_desc l = x :: rest) \/
          forall y, In y (sort_lastUpdated_desc l) ->
                    (lastUpdated y < lastUpdated x)%Z) as [H|H].
  { clear Hin. induction l as [|a l IH]; [right; intros y []|].
    cbn [sort_lastUpdated_desc fold_right].
    fold (sort_lastUpdated_desc l).
    destruct IH as [(rest & ->)|IH]; [intros y Hy; apply Hall; right; exact Hy | |].
    - left. cbn [insert_desc].
      destruct (Hall a (or_introl eq_refl)) as [->|Hlt].
      + rewrite Z.leb_refl. eauto.
      + replace (lastUpdated x <=? lastUpdated a)%Z with false
          by (symmetry; apply Z.leb_gt; exact Hlt).
        eauto.
    - destruct (Hall a (or_introl eq_refl)) as [->|Hlt].
      + left. destruct (sort_lastUpdated_desc l) as [|y l'] eqn:E;
          [cbn; eauto|].
        cbn [insert_desc].
        replace (lastUpdated y <=? lastUpdated x)%Z with true
          by (symmetry; apply Z.leb_le;
              specialize (IH y (or_introl eq_refl)); lia).
        eauto.
      + right. intros y Hy. apply in_insert_desc in Hy as [->|Hy]; auto. }
  - exact H.
  - exfalso.
    assert (In x (sort_lastUpdated_desc l)) as Hx.
    { apply Permutation_in with (l := l); [|exact Hin].
      symmetry. apply sort_lastUpdated_desc_perm. }
    specialize (H x Hx). lia.
Qed.

(** The session [id] after an update that keeps its identifier. *)
Lemma lookup_update_first_hit (id : N) (g : Session -> Session)
  (d : list Session) (s : Session) :
  _id (g s) = _id s -> lookup id d = Some s ->
  lookup id (update_first id g d) = Some (g s).
Proof.
  intros Hg Hl. pose proof (lookup_some _ _ Hl) as [_ Hids].
  unfold lookup in *. induction d as [|x d IH]; [discriminate|].
  simpl in *. destruct (has_id id x) eqn:Ex.
  - inversion Hl; subst x. simpl. unfold has_id.
    rewrite Hg, Hids, N.eqb_refl. reflexivity.
  - simpl. rewrite Ex. apply IH. exact Hl.
Qed.

Section Conversations.

Variable ObjectId_isValid : str -> bool.
Variable castObjectId : str -> Exn + N.

(** A relay answered with text, in terms of the session stored after. *)
Lemma relay_reply_stored (env : Env) (w : World)
  (sessionId userId input apiKey reply : str) (id : N) (s : Session) :
  relay_ready ObjectId_isValid castObjectId w sessionId userId input id s ->
  provider_replies env apiKey input reply ->
  exists t' g,
    relay ObjectId_isValid castObjectId env sessionId userId input w =
    (Ret (json 200 (BReply reply)),
     {| db := update_first id g (db w); trace := t' |}) /\
    _id (g s) = _id s /\ owner (g s) = owner s /\
    messages (g s) = messages s ++ exchange input reply /\
    lastUpdated (g s) = now env /\
    title (g s) = (if (List.length (messages s) =? 0)%nat
                   then derive_title input else title s).
Proof.
  intros Hr (r & data & Hk & Hf & Hok & Hj & Hc).
  destruct (relay_reply_run env Hr Hk Hf Hok Hj Hc) as (t' & E).
  exists t'. destruct (List.length (messages s) =? 0)%nat;
    cbn [effect_db] in E.
  - rewrite update_first_twice in E by (intros; apply apply_update_id).
    eexists. split; [exact E|]. repeat split.
  - eexists. split; [exact E|]. repeat split.
Qed.

(** X13: after a relay answered with text at a time later than every
    [lastUpdated] in the collection, the session it wrote to heads its
    owner's list of sessions. *)
Theorem relayed_session_listed_first (env : Env) (w : World)
  (sessionId userId input apiKey reply : str) (id : N) (s : Session) :
  relay_ready ObjectId_isValid castObjectId w sessionId userId input id s ->
  provider_replies env apiKey input reply ->
  (forall x, In x (db w) -> (lastUpdated x < now env)%Z) ->
  exists w' s' rest,
    relay ObjectId_isValid castObjectId env sessionId userId input w =
      (Ret (json 200 (BReply reply)), w') /\
    lookup id (db w') = Some s' /\
    messages s' = messages s ++ exchange input reply /\
    fst (listSessions userId w') = Ret (200%Z, LSessions (s' :: rest)).
Proof.
  intros Hr Hp Hold.
  destruct (relay_reply_stored Hr Hp)
    as (t' & g & E & Hid & Ho & Hm & Hlu & _).
  pose proof (ready_lookup Hr) as Hl. pose proof (ready_owner Hr) as Hown.
  pose proof (@lookup_update_first_hit id g (db w) s Hid Hl) as Hl'.
  assert (exists rest,
            sort_lastUpdated_desc
              (filter (owned_by userId) (update_first id g (db w))) =
            g s :: rest) as (rest & Hsort).
  { apply sort_head_latest.
    - apply filter_In. split.
      + apply lookup_some in Hl'. tauto.
      + apply owned_by_true. congruence.
    - intros y Hy. apply filter_In in Hy as [Hy _].
      apply in_update_first in Hy as [Hy|(s0 & Hl0 & ->)].
      + right. rewrite Hlu. apply Hold. exact Hy.
      + left. congruence. }
  do 3 eexists. split; [exact E|]. cbn [db]. split; [exact Hl'|].
  split; [exact Hm|].
  unfold listSessions, try_catch, bind, get_db, ret. cbn [db fst].
  rewrite Hsort. reflexivity.
Qed.

(** X14: the title is set by the first exchange only: after two relays
    answered with text on a session that had no messages, the session holds
    the two exchanges in order and its title is still the one derived from
    the first utterance. *)
Theorem title_from_first_utterance (env1 env2 : Env) (w : World)
  (sessionId userId input1 input2 apiKey1 apiKey2 reply1 reply2 : str)
  (id : N) (s : Session) :
  relay_ready ObjectId_isValid castObjectId w sessionId userId input1 id s ->
  messages s = [] -> input2 <> [] ->
  provider_replies env1 apiKey1 input1 reply1 ->
  provider_replies env2 apiKey2 input2 reply2 ->
  exists w1 w2 s2,
    relay ObjectId_isValid castObjectId env1 sessionId userId input1 w =
      (Ret (json 200 (BReply reply1)), w1) /\
    relay ObjectId_isValid castObjectId env2 sessionId userId input2 w1 =
      (Ret (json 200 (BReply reply2)), w2) /\
    lookup id (db w2) = Some s2 /\
    title s2 = derive_title input1 /\
    messages s2 = exchange input1 reply1 ++ exchange input2 reply2 /\
    lastUpdated s2 = now env2.
Proof.
  intros Hr Hm Hi2 Hp1 Hp2.
  destruct (relay_reply_stored Hr Hp1)
    as (t1 & g1 & E1 & Hid1 & Ho1 & Hm1 & Hlu1 & Ht1).
  rewrite Hm in Hm1, Ht1. cbn [List.length Nat.eqb app] in Hm1, Ht1.
  destruct Hr as [Hi Hs Hv Hc Hl Ho].
  pose proof (@lookup_update_first_hit id g1 (db w) s Hid1 Hl) as Hl1.
  set (w1 := {| db := update_first id g1 (db w); trace := t1 |}) in *.
  assert (relay_ready ObjectId_isValid castObjectId w1 sessionId userId
            input2 id (g1 s)) as Hr1.
  { constructor; auto. congruence. }
  destruct (relay_reply_stored Hr1 Hp2)
    as (t2 & g2 & E2 & Hid2 & Ho2 & Hm2 & Hlu2 & Ht2).
  rewrite Hm1 in Hm2, Ht2. cbn [exchange List.length Nat.eqb] in Ht2.
  exists w1. do 2 eexists. split; [exact E1|]. split; [exact E2|].
  cbn [db]. split.
  - exact (@lookup_update_first_hit id g2 _ (g1 s) Hid2 Hl1).
  - repeat split; congruence.
Qed.

End Conversations.

(** ** Accounts *)

Lemma find_app_none {A} (f : A -> bool) (l l' : list A) :
  find f l = None -> find f (l ++ l') = find f l'.
Proof.
  induction l as [|x l IH]; simpl; [reflexivity|].
  destruct (f x); [discriminate | exact IH].
Qed.

Lemma find_app_some {A} (f : A -> bool) (l l' : list A) (x : A) :
  find f l = Some x -> find f (l ++ l') = Some x.
Proof.
  induction l as [|y l IH]; simpl; [discriminate|].
  destruct (f y); [auto | exact IH].
Qed.

Lemma findOne_username_none (name_ : str) (users : list User) :
  findOne_username name_ users = None <-> ~ In name_ (List.map user_name users).
Proof.
  unfold findOne_username. induction users as [|u users IH]; simpl.
  - tauto.
  - destruct (str_eqb (user_name u) name_) eqn:E.
    + apply str_eqb_eq in E. split; [discriminate | tauto].
    + assert (user_name u <> name_)
        by (intros C; apply str_eqb_eq in C; congruence).
      rewrite IH. tauto.
Qed.

Lemma findById_user_none (id : str) (users : list User) :
  findById_user id users = None <-> ~ In id (List.map user_id users).
Proof.
  unfold findById_user. induction users as [|u users IH]; simpl.
  - tauto.
  - destruct (str_eqb (user_id u) id) eqn:E.
    + apply str_eqb_eq in E. split; [discriminate | tauto].
    + assert (user_id u <> id)
        by (intros C; apply str_eqb_eq in C; congruence).
      rewrite IH. tauto.
Qed.

Section AccountProperties.

Variable bcrypt_hash : str -> str -> str.
Variable bcrypt_compare : str -> str -> bool.
Variable jwt_sign : Claims -> Z -> str.

(** What one account request does to the users: nothing, or one account
    added at the end under a name and an identifier not yet in use. *)
Lemma auth_handle_adds (env : AuthEnv) (r : AuthRequest) (users : list User) :
  snd (auth_handle bcrypt_hash bcrypt_compare jwt_sign env r users) = users \/
  exists u,
    snd (auth_handle bcrypt_hash bcrypt_compare jwt_sign env r users) =
      users ++ [u] /\
    ~ In (user_name u) (List.map user_name users) /\
    ~ In (user_id u) (List.map user_id users).
Proof.
  destruct r as [name_ pw|name_ pw]; cbn [auth_handle].
  - unfold signup. destruct (truthy name_) as [n|]; [|left; reflexivity].
    destruct (truthy pw) as [p|]; [|left; reflexivity].
    destruct (findOne_username n users) eqn:En; [left; reflexivity|].
    destruct (findById_user (newUserId env) users) eqn:Ei;
      [left; reflexivity|].
    right. eexists. split; [reflexivity|]. cbn [user_name user_id]. split.
    + apply findOne_username_none. exact En.
    + apply findById_user_none. exact Ei.
  - left. unfold login. destruct (truthy name_) as [n|]; [|reflexivity].
    destruct (truthy pw) as [p|]; [|reflexivity].
    destruct (findOne_username n users) as [u|]; [|reflexivity].
    destruct (negb (bcrypt_compare p (passwordHash u))); reflexivity.
Qed.

(** X15: whatever signups and logins are served, accounts are only ever
    added (the existing ones stay as they are, in place), and user names
    and user identifiers stay unique. *)
Theorem accounts_only_added_and_unique (rs : list (AuthEnv * AuthRequest))
  (users : list User) :
  NoDup (List.map user_name users) -> NoDup (List.map user_id users) ->
  exists added,
    auth_serve bcrypt_hash bcrypt_compare jwt_sign rs users = users ++ added /\
    NoDup (List.map user_name (users ++ added)) /\
    NoDup (List.map user_id (users ++ added)).
Proof.
  revert users. induction rs as [|[env r] rs IH]; intros users Hn Hi.
  - exists []. rewrite app_nil_r. auto.
  - cbn [auth_serve].
    destruct (auth_handle_adds env r users) as [->|(u & -> & Hun & Hui)].
    + apply IH; assumption.
    + destruct (IH (users ++ [u])) as (added & E & Hn' & Hi').
      * rewrite map_app. apply NoDup_app; [exact Hn | |].
        -- repeat constructor. simpl. tauto.
        -- intros x Hx [<-|[]]. contradiction.
      * rewrite map_app. apply NoDup_app; [exact Hi | |].
        -- repeat constructor. simpl. tauto.
        -- intros x Hx [<-|[]]. contradiction.
      * exists (u :: added). rewrite <- app_assoc in E, Hn', Hi'.
        auto.
Qed.

(** X16: a failed login answers the same 401 'Invalid credentials' and
    changes nothing, whether no account has the user name or the password
    does not match the stored hash. *)
Theorem login_failure_uniform (env env' : AuthEnv) (name_ name' pw pw' : str)
  (users : list User) (u : User) :
  name_ <> [] -> name' <> [] -> pw <> [] -> pw' <> [] ->
  findOne_username name_ users = None ->
  findOne_username name' users = Some u ->
  bcrypt_compare pw' (passwordHash u) = false ->
  login bcrypt_compare jwt_sign env (Some name_) (Some pw) users =
    ((401%Z, AError (lit "Invalid credentials")), users) /\
  login bcrypt_compare jwt_sign env' (Some name') (Some pw') users =
    ((401%Z, AError (lit "Invalid credentials")), users).
Proof.
  intros Hn Hn' Hp Hp' Hnone Hsome Hwrong. unfold login.
  destruct name_, name', pw, pw'; try contradiction.
  cbn [truthy]. rewrite Hnone, Hsome, Hwrong. split; reflexivity.
Qed.

(** X17: after a signup under a free user name, a login with the same
    name and password succeeds as the new user, a login with a password
    that does not match the hash is refused, and [/api/auth/me] answers
    the new user's identifier and name and never the hash. *)
Theorem signup_then_login (env env' : AuthEnv) (name_ pw : str)
  (users : list User) :
  name_ <> [] -> pw <> [] ->
  findOne_username name_ users = None ->
  findById_user (newUserId env) users = None ->
  bcrypt_compare pw (bcrypt_hash pw (salt env)) = true ->
  let u := {| user_id := newUserId env; user_name := name_;
              passwordHash := bcrypt_hash pw (salt env) |} in
  let token t := jwt_sign {| sub := newUserId env; username := name_ |} t in
  signup bcrypt_hash jwt_sign env (Some name_) (Some pw) users =
    ((200%Z, AToken (token (auth_now env)) (newUserId env) name_),
     users ++ [u]) /\
  login bcrypt_compare jwt_sign env' (Some name_) (Some pw) (users ++ [u]) =
    ((200%Z, AToken (token (auth_now env')) (newUserId env) name_),
     users ++ [u]) /\
  (forall pw', pw' <> [] ->
     bcrypt_compare pw' (bcrypt_hash pw (salt env)) = false ->
     login bcrypt_compare jwt_sign env' (Some name_) (Some pw')
           (users ++ [u]) =
     ((401%Z, AError (lit "Invalid credentials")), users ++ [u])) /\
  me (newUserId env) (users ++ [u]) =
    ((200%Z, AUser (newUserId env) name_), users ++ [u]).
Proof.
  intros Hn Hp Hfree Hid Hcmp u token.
  assert (findOne_username name_ (users ++ [u]) = Some u) as Hfind.
  { unfold findOne_username in *. rewrite find_app_none by exact Hfree.
    cbn [find user_name u]. rewrite str_eqb_refl. reflexivity. }
  assert (findById_user (newUserId env) (users ++ [u]) = Some u) as Hfid.
  { unfold findById_user in *. rewrite find_app_none by exact Hid.
    cbn [find user_id u]. rewrite str_eqb_refl. reflexivity. }
  destruct name_ as [|c n]; [contradiction|].
  destruct pw as [|c' p]; [contradiction|].
  split; [|split; [|split]].
  - unfold signup. cbn [truthy]. rewrite Hfree, Hid. reflexivity.
  - unfold login. cbn [truthy]. rewrite Hfind. cbn [passwordHash u].
    rewrite Hcmp. reflexivity.
  - intros pw' Hp' Hwrong. unfold login. destruct pw'; [contradiction|].
    cbn [truthy]. rewrite Hfind. cbn [passwordHash u]. rewrite Hwrong.
    reflexivity.
  - unfold me. rewrite Hfid. reflexivity.
Qed.

(** X18: the token a signup issues, sent the way the client sends it
    ([Bearer <token>]), runs every route as the new user, provided the
    token verifies to the payload it was signed for and has no space in
    it (it is cut at the first space otherwise). *)
Theorem signup_token_authenticates (jwt_verify : str -> option Claims)
  (env : AuthEnv) (name_ pw : option str) (users users' : list User)
  (token id uname : str) (payload : Claims) (next : str -> M Response)
  (w : World) :
  signup bcrypt_hash jwt_sign env name_ pw users =
    ((200%Z, AToken token id uname), users') ->
  jwt_verify token = Some payload -> sub payload = id ->
  ~ In space token ->
  In id (List.map user_id users') /\
  authMiddleware jwt_verify (Some (lit "Bearer " ++ token)) next w =
    next id w.
Proof.
  intros Hs Hv Hsub Hsp. split.
  - unfold signup in Hs. destruct (truthy name_); [|discriminate].
    destruct (truthy pw); [|discriminate].
    destruct (findOne_username s users); [discriminate|].
    destruct (findById_user (newUserId env) users); [discriminate|].
    inversion Hs; subst. rewrite map_app. apply in_or_app. right.
    left. reflexivity.
  - pose proof (authMiddleware_caller jwt_verify
                  (Some (lit "Bearer " ++ token)) next w) as H.
    unfold caller in H. rewrite bearer_token_bearer in H.
    rewrite (before_without _ _ Hsp), Hv in H. cbn [option_map] in H.
    rewrite Hsub in H. exact H.
Qed.

End AccountProperties.

(** ** The client's side of the relay *)







Section ClientAndServer.

Variable ObjectId_isValid : str -> bool.
Variable castObjectId : str -> Exn + N.

Lemma truthy_nonempty (s : str) : s <> [] -> truthy (Some s) = Some s.
Proof. destruct s; [contradiction | reflexivity]. Qed.

Lemma truthy_truthy (v : option str) (s : str) :
  truthy v = Some s -> truthy (Some s) = Some s.
Proof.
  destruct v as [[|c t]|]; try discriminate. intros H. inversion H.
  reflexivity.
Qed.

Lemma lit_app_nonempty (p : string) (rest : str) :
  lit p <> [] -> lit p ++ rest <> [].
Proof. intros H E. apply app_eq_nil in E as [E _]. contradiction. Qed.

Lemma String_of_nonempty (e : Exn) : String_of e <> [].
Proof.
  unfold String_of. intros E. apply app_eq_nil in E as [_ E].
  apply app_eq_nil in E as [E _]. vm_compute in E. discriminate.
Qed.

Lemma upstream_hint_truthy (model : str) (st : Z) (errorBody : str) :
  truthy (upstream_hint model st errorBody) =
  upstream_hint model st errorBody.
Proof.
  unfold upstream_hint.
  destruct (st =? 404)%Z.
  { apply truthy_nonempty, lit_app_nonempty. vm_compute. discriminate. }
  destruct (st =? 403)%Z.
  { apply truthy_nonempty. vm_compute. discriminate. }
  destruct ((st =? 400)%Z && includes errorBody (lit "API_KEY_INVALID"));
    [|reflexivity].
  apply truthy_nonempty. vm_compute. discriminate.
Qed.

(** X20: an utterance the client posts is never answered 'Missing input',
    on any session, by any caller, in any state of the collection. *)
Theorem client_post_never_missing_input (input : str) (loading : bool)
  (m : str) (env : Env) (sessionId userId : str) (w : World) :
  messageToSend input loading = Some m ->
  fst (relay ObjectId_isValid castObjectId env sessionId userId m w) <>
  Ret (json 400 (BError (lit "Missing input"))).
Proof.
  intros Hm. unfold messageToSend in Hm.
  destruct (trim input) as [|c t]; [discriminate|].
  destruct loading; [discriminate|]. inversion Hm; subst m.
  destruct (relay_outcome ObjectId_isValid castObjectId env sessionId userId
              (c :: t) w) as (resp & d' & evs & E & C).
  rewrite E. cbn [fst].
  destruct C; intros E'; first [congruence | vm_compute in E'; congruence].
Qed.

Lemma finalReply_reply (reply rawBody : str) :
  reply <> [] -> finalReply (json 200 (BReply reply)) rawBody true = reply.
Proof.
  intros H. unfold finalReply.
  change (res_ok (json 200 (BReply reply))) with true. cbn [negb].
  change (revealed_reply (json 200 (BReply reply))) with (Some reply).
  rewrite (truthy_nonempty H). reflexivity.
Qed.

Lemma finalReply_error (c : Z) (e rawBody : str) :
  (c <? 200)%Z || (300 <=? c)%Z = true -> e <> [] ->
  finalReply (json c (BError e)) rawBody true = e.
Proof.
  intros Hc He. unfold finalReply, res_ok. cbn [code json].
  replace ((200 <=? c)%Z && (c <? 300)%Z) with false by lia. cbn [negb].
  change (revealed_error (json c (BError e))) with (Some e).
  change (revealed_hint (json c (BError e))) with (@None str).
  rewrite (truthy_nonempty He). cbn [truthy]. apply app_nil_r.
Qed.

(** X21: what the client shows for the answer to a post, when the body
    sent by the relay parses back to its JSON: the reply when the relay
    answered 200, and otherwise the relay's error text, followed by a dash
    and the hint when the relay gave one; never the fallback texts for an
    answer without error or reply. *)
Theorem client_shows_relay_answer (env : Env) (sessionId userId input : str)
  (w : World) (rawBody : str) :
  exists resp w',
    relay ObjectId_isValid castObjectId env sessionId userId input w =
      (Ret resp, w') /\
    ((exists reply,
        resp = json 200 (BReply reply) /\
        finalReply resp rawBody true = reply) \/
     (exists error,
        code resp <> 200%Z /\ revealed_error resp = Some error /\
        finalReply resp rawBody true =
          error ++ match revealed_hint resp with
                   | Some h => lit " " ++ [8212%N] ++ lit " " ++ h
                   | None => []
                   end)).
Proof.
  destruct (relay_outcome ObjectId_isValid castObjectId env sessionId userId
              input w) as (resp & d' & evs & E & C).
  do 2 eexists. split; [exact E|].
  assert (forall c e, (c <? 200)%Z || (300 <=? c)%Z = true -> e <> [] ->
            exists error,
              code (json c (BError e)) <> 200%Z /\
              revealed_error (json c (BError e)) = Some error /\
              finalReply (json c (BError e)) rawBody true =
              error ++ match revealed_hint (json c (BError e)) with
                       | Some h => lit " " ++ [8212%N] ++ lit " " ++ h
                       | None => []
                       end) as Herr.
  { intros c e Hc He. exists e. split; [|split; [reflexivity|]].
    - cbn [code json]. intros ->. discriminate.
    - rewrite (finalReply_error _ rawBody Hc He).
      change (revealed_hint (json c (BError e))) with (@None str).
      symmetry. apply app_nil_r. }
  assert (forall reply, reply <> [] ->
            exists reply',
              json 200 (BReply reply) = json 200 (BReply reply') /\
              finalReply (json 200 (BReply reply)) rawBody true = reply')
    as Hrep.
  { intros reply Hr. exists reply. split; [reflexivity|].
    apply finalReply_reply. exact Hr. }
  destruct C;
    try (right; apply Herr; [reflexivity|];
         first [ apply String_of_nonempty
               | apply lit_app_nonempty; vm_compute; discriminate
               | vm_compute; discriminate ]).
  - (* echo *)
    left. apply Hrep. unfold echo_reply. apply lit_app_nonempty.
    vm_compute. discriminate.
  - (* upstream *)
    right. eexists. split; [discriminate|]. split; [reflexivity|].
    unfold finalReply.
    match goal with
    | |- context [res_ok ?r] => change (res_ok r) with false
    end.
    cbn [negb].
    match goal with
    | |- context [revealed_error (json _ (BUpstream ?e ?st ?b ?h))] =>
      change (revealed_error (json 502 (BUpstream e st b h))) with (Some e);
      change (revealed_hint (json 502 (BUpstream e st b h))) with h
    end.
    rewrite truthy_nonempty by (vm_compute; discriminate).
    rewrite upstream_hint_truthy. reflexivity.
  - (* text *)
    left. apply Hrep. intros ->.
    match goal with
    | H : truthy _ = Some [] |- _ =>
      apply truthy_truthy in H; discriminate H
    end.
  - (* block notice *)
    left. apply Hrep. unfold block_notice. apply lit_app_nonempty.
    vm_compute. discriminate.
Qed.

End ClientAndServer.

(** ** The further properties on concrete requests *)

Lemma demo_replies :
  provider_replies Demo.answering (lit "key") (lit "Hello") (lit "Hi").
Proof.
  exists (Demo.replies (lit "Hi")).
  exists {| candidateText := Some (lit "Hi"); blockReason := None |}.
  repeat split.
Defined.

Lemma lit_Hi_nonempty : lit "Hi" <> [].
Proof. vm_compute. discriminate. Defined.

Lemma unauthenticated_request_rejected_witness :
  exists error,
    handle isValid24 cast24 verify_plain Demo.env0 None
           (DELETE_session Demo.sid) Demo.w1 =
    (Ret (json 401 (BError error)), Demo.w1).
Proof.
  apply unauthenticated_request_rejected; [reflexivity | discriminate].
Defined.

Lemma session_untouched_by_others_witness :
  lookup Demo.oid
    (db (snd (handle isValid24 cast24 verify_plain Demo.env0
                     DemoMore.bearer_bob (DELETE_session Demo.sid) Demo.w1))) =
  Some Demo.fresh_session.
Proof.
  apply (@session_untouched_by_others isValid24 cast24 verify_plain Demo.env0
           DemoMore.bearer_bob (DELETE_session Demo.sid) Demo.w1
           Demo.fresh_session).
  - repeat constructor. simpl. tauto.
  - left. reflexivity.
  - intros H. vm_compute in H. discriminate.
Defined.

Lemma relay_unauthorized_witness :
  relay isValid24 cast24 Demo.answering Demo.sid Demo.alice (lit "Hello")
        empty_world =
    (Ret (json 404 (BError (lit "Chat session not found"))),
     {| db := []; trace := [EvFindById Demo.sid] |}) /\
  relay isValid24 cast24 Demo.answering Demo.sid Demo.bob (lit "Hello")
        Demo.w1 =
    (Ret (json 403 (BError (lit "Forbidden"))),
     {| db := db Demo.w1; trace := [EvFindById Demo.sid] |}).
Proof.
  split.
  - apply (proj1 (@relay_unauthorized isValid24 cast24 Demo.answering Demo.sid
                    Demo.alice (lit "Hello") Demo.oid empty_world
                    lit_Hello_nonempty
                    ltac:(vm_compute; discriminate) eq_refl eq_refl)).
    reflexivity.
  - apply (proj2 (@relay_unauthorized isValid24 cast24 Demo.answering Demo.sid
                    Demo.bob (lit "Hello") Demo.oid Demo.w1
                    lit_Hello_nonempty
                    ltac:(vm_compute; discriminate) eq_refl eq_refl)
             Demo.fresh_session eq_refl).
    vm_compute. discriminate.
Defined.

Lemma relay_transport_failure_witness :
  relay isValid24 cast24 DemoMore.offline Demo.sid Demo.alice (lit "Hello")
        Demo.w1 =
    (Ret (json 500 (BError (lit "FetchError: no network"))),
     after_fetch DemoMore.offline Demo.w1 Demo.sid (lit "key") (lit "Hello")) /\
  relay isValid24 cast24 DemoMore.garbled Demo.sid Demo.alice (lit "Hello")
        Demo.w1 =
    (Ret (json 500 (BError (lit "SyntaxError: Unexpected token"))),
     after_fetch DemoMore.garbled Demo.w1 Demo.sid (lit "key") (lit "Hello")).
Proof.
  split.
  - apply (proj1 (relay_transport_failure DemoMore.offline
                    (demo_ready lit_Hello_nonempty) eq_refl)
             {| name := lit "FetchError"; message := lit "no network" |}).
    reflexivity.
  - apply (proj2 (relay_transport_failure DemoMore.garbled
                    (demo_ready lit_Hello_nonempty) eq_refl)
             (Demo.fails 200 [])
             {| name := lit "SyntaxError";
                message := lit "Unexpected token" |});
      reflexivity.
Defined.

Lemma share_link_format_witness :
  exists token,
    fst (issueShareToken cast24 DemoMore.offline (lit "http")
           (lit "localhost:5000") Demo.sid Demo.alice Demo.w1) =
      Ret (json 200 (BShare token
             (match truthy (APP_URL DemoMore.offline) with
              | Some base => base
              | None => lit "http" ++ lit "://" ++ lit "localhost:5000"
              end ++ lit "/share/" ++ token))) /\
    List.length token = 32%nat /\
    forallb is_lower_hex token = true.
Proof.
  apply (@share_link_format cast24 DemoMore.offline (lit "http")
           (lit "localhost:5000") Demo.sid Demo.alice Demo.oid
           Demo.fresh_session Demo.w1); reflexivity.
Defined.

Lemma created_session_read_back_witness :
  exists s w',
    createSession Demo.env0 Demo.alice (Some []) empty_world =
      (Ret (json 200 (BSession s)), w') /\
    db w' = db empty_world ++ [s] /\
    _id s = newObjectId Demo.env0 /\ owner s = Demo.alice /\
    messages s = [] /\ shareToken s = None /\
    title s = match truthy (Some []) with
              | Some t => t
              | None => lit "New Chat"
              end /\
    fst (getSession cast24 Demo.sid Demo.alice w') =
      Ret (json 200 (BSession s)) /\
    forall other, other <> Demo.alice ->
      fst (getSession cast24 Demo.sid other w') =
        Ret (json 403 (BError (lit "Forbidden"))).
Proof.
  apply (@created_session_read_back cast24 Demo.env0 Demo.alice Demo.sid
           (Some []) empty_world); reflexivity.
Defined.

Lemma lit_And_then_nonempty : lit "And then?" <> [].
Proof. vm_compute. discriminate. Defined.

Lemma store_ready (input : str) :
  input <> [] ->
  relay_ready isValid24 cast24 DemoStore.w2 DemoStore.sid2 Demo.alice input
              DemoStore.oid2 DemoStore.older.
Proof.
  intros H. split; try reflexivity; [exact H | vm_compute; discriminate].
Defined.

Lemma continuing_replies (input : str) :
  provider_replies DemoStore.continuing (lit "key") input (lit "More").
Proof.
  exists (Demo.replies (lit "More")).
  exists {| candidateText := Some (lit "More"); blockReason := None |}.
  repeat split.
Defined.

Lemma relayed_session_listed_first_witness :
  exists w' s' rest,
    relay isValid24 cast24 DemoStore.continuing DemoStore.sid2 Demo.alice
          (lit "Hello") DemoStore.w2 =
      (Ret (json 200 (BReply (lit "More"))), w') /\
    lookup DemoStore.oid2 (db w') = Some s' /\
    messages s' = messages DemoStore.older ++
                  exchange (lit "Hello") (lit "More") /\
    fst (listSessions Demo.alice w') = Ret (200%Z, LSessions (s' :: rest)).
Proof.
  apply (relayed_session_listed_first (store_ready lit_Hello_nonempty)
           (continuing_replies (lit "Hello"))).
  intros x [<-|[<-|[]]]; reflexivity.
Defined.

Lemma title_from_first_utterance_witness :
  exists w1 w2 s2,
    relay isValid24 cast24 Demo.answering Demo.sid Demo.alice (lit "Hello")
          Demo.w1 = (Ret (json 200 (BReply (lit "Hi"))), w1) /\
    relay isValid24 cast24 DemoStore.continuing Demo.sid Demo.alice
          (lit "And then?") w1 = (Ret (json 200 (BReply (lit "More"))), w2) /\
    lookup Demo.oid (db w2) = Some s2 /\
    title s2 = derive_title (lit "Hello") /\
    messages s2 = exchange (lit "Hello") (lit "Hi") ++
                  exchange (lit "And then?") (lit "More") /\
    lastUpdated s2 = now DemoStore.continuing.
Proof.
  apply (title_from_first_utterance (demo_ready lit_Hello_nonempty) eq_refl
           lit_And_then_nonempty
           demo_replies
           (continuing_replies (lit "And then?"))).
Defined.

Lemma accounts_only_added_and_unique_witness :
  exists added,
    auth_serve DemoAuth.hash DemoAuth.compare DemoAuth.sign
      [ (DemoAuth.env, Signup (Some (lit "Alice")) (Some (lit "secret")));
        (DemoAuth.env2, Signup (Some (lit "Alice")) (Some (lit "other"))) ]
      [] = [] ++ added /\
    NoDup (List.map user_name ([] ++ added)) /\
    NoDup (List.map user_id ([] ++ added)).
Proof.
  apply accounts_only_added_and_unique; constructor.
Defined.

Lemma login_failure_uniform_witness :
  login DemoAuth.compare DemoAuth.sign DemoAuth.env (Some (lit "Bob"))
        (Some (lit "secret")) DemoAuth.users1 =
    ((401%Z, AError (lit "Invalid credentials")), DemoAuth.users1) /\
  login DemoAuth.compare DemoAuth.sign DemoAuth.env2 (Some (lit "Alice"))
        (Some (lit "wrong")) DemoAuth.users1 =
    ((401%Z, AError (lit "Invalid credentials")), DemoAuth.users1).
Proof.
  apply (@login_failure_uniform DemoAuth.compare DemoAuth.sign DemoAuth.env
           DemoAuth.env2 (lit "Bob") (lit "Alice") (lit "secret") (lit "wrong")
           DemoAuth.users1
           {| user_id := lit "alice"; user_name := lit "Alice";
              passwordHash := DemoAuth.hash (lit "secret") (lit "s1") |});
    try (vm_compute; discriminate); reflexivity.
Defined.

Lemma signup_then_login_witness :
  signup DemoAuth.hash DemoAuth.sign DemoAuth.env (Some (lit "Alice"))
         (Some (lit "secret")) [] =
    ((200%Z, AToken (lit "alice") (lit "alice") (lit "Alice")),
     DemoAuth.users1) /\
  login DemoAuth.compare DemoAuth.sign DemoAuth.env2 (Some (lit "Alice"))
        (Some (lit "secret")) DemoAuth.users1 =
    ((200%Z, AToken (lit "alice") (lit "alice") (lit "Alice")),
     DemoAuth.users1) /\
  me (lit "alice") DemoAuth.users1 =
    ((200%Z, AUser (lit "alice") (lit "Alice")), DemoAuth.users1).
Proof.
  destruct (@signup_then_login DemoAuth.hash DemoAuth.compare DemoAuth.sign
              DemoAuth.env DemoAuth.env2 (lit "Alice") (lit "secret") [])
    as (S & L & _ & Me);
    try reflexivity; try (vm_compute; discriminate).
  repeat split; assumption.
Defined.

Lemma signup_token_authenticates_witness :
  In (lit "alice") (List.map user_id DemoAuth.users1) /\
  authMiddleware verify_plain (Some (lit "Bearer " ++ lit "alice"))
    (getSession cast24 Demo.sid) Demo.w1 =
  getSession cast24 Demo.sid (lit "alice") Demo.w1.
Proof.
  apply (@signup_token_authenticates DemoAuth.hash DemoAuth.sign verify_plain
           DemoAuth.env (Some (lit "Alice")) (Some (lit "secret")) []
           DemoAuth.users1 (lit "alice") (lit "alice") (lit "Alice")
           {| sub := lit "alice"; username := lit "alice" |}).
  - reflexivity.
  - reflexivity.
  - reflexivity.
  - intros H. vm_compute in H.
    repeat (destruct H as [H|H]; [discriminate H|]). exact H.
Defined.

Lemma client_post_never_missing_input_witness :
  messageToSend (lit "  Hello ") false = Some (lit "Hello") /\
  fst (relay isValid24 cast24 Demo.env0 Demo.sid Demo.alice (lit "Hello")
             Demo.w1) <>
  Ret (json 400 (BError (lit "Missing input"))).
Proof.
  split; [reflexivity|].
  apply (@client_post_never_missing_input isValid24 cast24 (lit "  Hello ")
           false (lit "Hello")).
  reflexivity.
Defined.

(** ** Deleting and sharing, seen through the other routes *)

Lemma in_remove_first_iff (id : N) (d : list Session) (s x : Session) :
  NoDup (ids d) -> lookup id d = Some s ->
  (In x (remove_first id d) <-> In x d /\ x <> s).
Proof.
  unfold lookup, ids. induction d as [|y d IH]; simpl; intros ND Hl.
  - discriminate.
  - inversion ND as [|? ? Hy ND']; subst.
    destruct (has_id id y) eqn:E.
    + inversion Hl; subst y. split.
      * intros Hx. split; [tauto|]. intros ->. apply Hy.
        apply in_map. exact Hx.
      * intros [[->|Hx] Hne]; [contradiction | exact Hx].
    + simpl. rewrite (IH ND' Hl). split.
      * intros [->|[Hx Hne]]; [|tauto]. split; [tauto|].
        intros ->. apply find_some in Hl as [_ Hs]. congruence.
      * intros [[->|Hx] Hne]; tauto.
Qed.

Lemma find_carries_update_first_same (id : N) (t : str)
  (g : Session -> Session) (d : list Session) (s : Session) :
  find (carries t) d = Some s -> lookup id d = Some s ->
  carries t (g s) = true ->
  find (carries t) (update_first id g d) = Some (g s).
Proof.
  unfold lookup. induction d as [|x d IH]; simpl; intros Hf Hl Hg.
  - discriminate.
  - destruct (has_id id x) eqn:Ex.
    + inversion Hl; subst x. simpl. rewrite Hg. reflexivity.
    + simpl. destruct (carries t x) eqn:Ec.
      * inversion Hf; subst x. apply find_some in Hl as [_ Hs]. congruence.
      * apply IH; assumption.
Qed.

Section Lifecycle.

Variable castObjectId : str -> Exn + N.

(** X22: once its owner has deleted a session, reading it answers 404,
    a share token that only it carried resolves to nothing, and the
    owner's list holds exactly the owner's other sessions. *)
Theorem deleted_session_gone (sessionId userId token : str) (id : N)
  (s : Session) (w : World) :
  castObjectId sessionId = inr id -> NoDup (ids (db w)) ->
  lookup id (db w) = Some s -> owner s = userId ->
  (forall x, In x (db w) -> carries token x = true -> x = s) ->
  exists w' l,
    deleteSession castObjectId sessionId userId w =
      (Ret (json 200 (BMessage (lit "Chat session deleted successfully"))),
       w') /\
    fst (getSession castObjectId sessionId userId w') =
      Ret (json 404 (BError (lit "Chat session not found"))) /\
    fst (getByShareToken token w') =
      Ret (json 404 (BError (lit "Shared chat not found"))) /\
    fst (listSessions userId w') = Ret (200%Z, LSessions l) /\
    forall x, In x l <-> In x (db w) /\ owner x = userId /\ x <> s.
Proof.
  intros Hc ND Hl Ho Htok.
  rewrite deleteSession_run with (id := id) by exact Hc.
  rewrite Hl, Ho, str_eqb_refl. do 2 eexists. split; [reflexivity|].
  rewrite getSession_run with (id := id) by exact Hc.
  rewrite getByShareToken_run. cbn [db fst].
  rewrite lookup_remove_first by exact ND. rewrite N.eqb_refl.
  split; [reflexivity|]. split.
  - rewrite find_carries_none; [reflexivity|].
    intros x Hx.
    apply (@in_remove_first_iff id (db w) s x ND Hl) in Hx as [Hx Hne].
    destruct (carries token x) eqn:E; [|reflexivity].
    elim Hne. apply Htok; assumption.
  - split; [reflexivity|]. intros x. split.
    + intros Hx.
      apply (Permutation_in _ (sort_lastUpdated_desc_perm _)) in Hx.
      apply filter_In in Hx as [Hx Hown]. apply owned_by_true in Hown.
      apply (@in_remove_first_iff id (db w) s x ND Hl) in Hx. tauto.
    + intros (Hx & Hown & Hne).
      apply (Permutation_in _
               (Permutation_sym (sort_lastUpdated_desc_perm _))).
      apply filter_In. split.
      * apply (@in_remove_first_iff id (db w) s x ND Hl). tauto.
      * apply owned_by_true. exact Hown.
Qed.

Variable ObjectId_isValid : str -> bool.

(** X23: a share link keeps showing the conversation as it grows: after
    a relay answered with text, the token the session carried resolves to
    the session with the new exchange at the end of its messages. *)
Theorem share_link_follows_conversation (env : Env) (w : World)
  (sessionId userId input apiKey reply token : str) (id : N) (s : Session) :
  relay_ready ObjectId_isValid castObjectId w sessionId userId input id s ->
  provider_replies env apiKey input reply ->
  find (carries token) (db w) = Some s ->
  exists w' s',
    relay ObjectId_isValid castObjectId env sessionId userId input w =
      (Ret (json 200 (BReply reply)), w') /\
    fst (getByShareToken token w') = Ret (json 200 (BSession s')) /\
    _id s' = _id s /\ shareToken s' = shareToken s /\
    messages s' = messages s ++ exchange input reply.
Proof.
  intros Hr (r & data & Hk & Hf & Hok & Hj & Hc) Hshare.
  destruct (relay_reply_run env Hr Hk Hf Hok Hj Hc) as (t' & E).
  pose proof (ready_lookup Hr) as Hl.
  assert (carries token s = true) as Hcs
    by (apply find_some in Hshare; tauto).
  destruct (List.length (messages s) =? 0)%nat; cbn [effect_db] in E.
  - rewrite update_first_twice in E by (intros; apply apply_update_id).
    do 2 eexists. split; [exact E|]. rewrite getByShareToken_run.
    cbn [db fst].
    rewrite (find_carries_update_first_same id token _ _ Hshare Hl);
      [|exact Hcs].
    repeat split.
  - do 2 eexists. split; [exact E|]. rewrite getByShareToken_run.
    cbn [db fst].
    rewrite (find_carries_update_first_same id token _ _ Hshare Hl);
      [|exact Hcs].
    repeat split.
Qed.

End Lifecycle.

Lemma deleted_session_gone_witness :
  exists w' l,
    deleteSession cast24 DemoStore.sid2 Demo.alice DemoStore.w2 =
      (Ret (json 200 (BMessage (lit "Chat session deleted successfully"))),
       w') /\
    fst (getSession cast24 DemoStore.sid2 Demo.alice w') =
      Ret (json 404 (BError (lit "Chat session not found"))) /\
    fst (getByShareToken Demo.token1 w') =
      Ret (json 404 (BError (lit "Shared chat not found"))) /\
    fst (listSessions Demo.alice w') = Ret (200%Z, LSessions l) /\
    forall x, In x l <->
              In x (db DemoStore.w2) /\ owner x = Demo.alice /\
              x <> DemoStore.older.
Proof.
  apply (@deleted_session_gone cast24 DemoStore.sid2 Demo.alice Demo.token1
           DemoStore.oid2 DemoStore.older DemoStore.w2).
  - reflexivity.
  - repeat constructor; cbn [In ids map DemoStore.w2 db]; vm_compute;
      intuition discriminate.
  - reflexivity.
  - reflexivity.
  - intros x [<-|[<-|[]]] H; [vm_compute in H; discriminate H | reflexivity].
Defined.

Lemma share_link_follows_conversation_witness :
  exists w' s',
    relay isValid24 cast24 Demo.answering Demo.sid Demo.alice (lit "Hello")
          Demo.shared = (Ret (json 200 (BReply (lit "Hi"))), w') /\
    fst (getByShareToken Demo.token0 w') = Ret (json 200 (BSession s')) /\
    _id s' = Demo.oid /\ shareToken s' = Some Demo.token0 /\
    messages s' = [] ++ exchange (lit "Hello") (lit "Hi").
Proof.
  apply (@share_link_follows_conversation cast24 isValid24 Demo.answering
           Demo.shared Demo.sid Demo.alice (lit "Hello") (lit "key")
           (lit "Hi") Demo.token0 Demo.oid
           {| _id := Demo.oid; owner := Demo.alice; title := lit "New Chat";
              messages := []; shareToken := Some Demo.token0;
              lastUpdated := 1000 |}).
  - constructor; try reflexivity; vm_compute; discriminate.
  - exact demo_replies.
  - reflexivity.
Defined.

(** ** The relay on any request body *)

Ltac run_value :=
  unfold relay_value, relay_provider_value, createSession_value, create,
    findById, findByIdAndUpdate, do_fetch, response_json, cast, lift,
    bind, ret, throw, try_catch, log, get_db, put_db;
  cbn [db trace fst snd].

Ltac refused :=
  do 3 eexists; split;
  [ reflexivity
  | cbn [db trace]; apply RV_refused; cbn [code json]; discriminate ].

Section RelayAnyBody.

Variable ObjectId_isValid : str -> bool.
Variable castObjectId : str -> Exn + N.


(** Every relay call, whatever its input, takes one of the branches. *)
Lemma relay_value_outcome (env : Env) (sessionId userId : str)
  (input : JsValue) (w : World) :
  exists out d' t',
    relay_value ObjectId_isValid castObjectId env sessionId userId input w =
    (out, {| db := d'; trace := t' |}) /\
    relay_value_case castObjectId env sessionId userId input w out d'.
Proof.
  destruct (js_truthy input) eqn:Et.
  2:{ run_value. rewrite Et. destruct w. refused. }
  destruct (is_empty sessionId) eqn:Es.
  { run_value. rewrite Et, Es. destruct w. refused. }
  destruct (ObjectId_isValid sessionId) eqn:Ev.
  2:{ run_value. rewrite Et, Es, Ev. destruct w. refused. }
  destruct (castObjectId sessionId) as [e|id] eqn:Ec.
  { run_value. rewrite Et, Es, Ev, Ec. refused. }
  destruct (lookup id (db w)) as [s|] eqn:El.
  2:{ run_value. rewrite Et, Es, Ev, Ec. cbn [negb db]. rewrite El. refused. }
  destruct (str_eqb (owner s) userId) eqn:Eo.
  2:{ run_value. rewrite Et, Es, Ev, Ec. cbn [negb db]. rewrite El, Eo.
      refused. }
  assert (owner s = userId) as Ho by (apply str_eqb_eq; exact Eo).
  destruct (truthy (GEMINI_API_KEY env)) as [apiKey|] eqn:Ek.
  2:{ run_value. rewrite Et, Es, Ev, Ec. cbn [negb db]. rewrite El, Eo, Ek.
      cbn [negb]. destruct (js_String input) as [e|text] eqn:Est;
        cbv beta iota.
      - do 3 eexists. split; [reflexivity|]. cbn [db trace]. apply RV_echo_throws; assumption.
      - do 3 eexists. split; [reflexivity|]. cbn [db trace]. apply RV_echo; assumption. }
  run_value. rewrite Et, Es, Ev, Ec. cbn [negb db]. rewrite El, Eo, Ek.
  cbn [negb].
  destruct (js_String input) as [e|text] eqn:Est; cbv beta iota; [refused|].
  destruct (fetch env (provider_request env apiKey text)) as [e|r] eqn:Ef;
    cbv beta iota; [refused|].
  destruct (ok r) eqn:Eok; cbn [negb]; cbv beta iota; [|refused].
  destruct (bodyJson r) as [e|data] eqn:Ej; cbv beta iota; [refused|].
  destruct (truthy (candidateText data)) as [reply|] eqn:Ect; cbv beta iota.
  - destruct (js_cast input) as [e|content_] eqn:Ecast; cbv beta iota;
      [refused|].
    cbn [db trace].
    rewrite lookup_update_first by (intros; apply apply_update_id).
    rewrite N.eqb_refl, El. cbn [option_map apply_update messages].
    rewrite length_app. cbn [exchange List.length].
    destruct (messages s) as [|m ms] eqn:Em.
    + cbn [List.length Nat.add Nat.eqb].
      destruct (js_title input) as [e|title_] eqn:Eti; cbv beta iota.
      * do 3 eexists. split; [reflexivity|]. cbn [db trace].
        eapply RV_title_throws; eassumption.
      * do 3 eexists. split; [reflexivity|]. cbn [db trace].
        eapply RV_titled; eassumption.
    + replace (List.length (m :: ms) + 2 =? 2)%nat with false
        by (symmetry; apply Nat.eqb_neq; cbn [List.length]; lia).
      do 3 eexists. split; [reflexivity|]. cbn [db trace].
      eapply RV_appended; eassumption.
  - destruct (truthy (blockReason data)) as [reason|] eqn:Eb; cbv beta iota;
      [|refused].
    destruct (js_cast input) as [e|content_] eqn:Ecast; cbv beta iota;
      [refused|].
    do 3 eexists. split; [reflexivity|]. cbn [db trace].
    eapply RV_appended; eassumption.
Qed.

End RelayAnyBody.

(** ** Every request, whatever its body *)







Section ServerAnyBodyProperties.

Variable ObjectId_isValid : str -> bool.
Variable castObjectId : str -> Exn + N.
Variable jwt_verify : str -> option Claims.



End ServerAnyBodyProperties.

Section MessagesOfEverySession.

Variable ObjectId_isValid : str -> bool.
Variable castObjectId : str -> Exn + N.
Variable jwt_verify : str -> option Claims.


End MessagesOfEverySession.

Section RelayAnswersAndStores.

Variable ObjectId_isValid : str -> bool.
Variable castObjectId : str -> Exn + N.

(** X7: with a credential configured, a relay call of any input value sends
    a response, and what it answers and what it stores agree in this way:
    either the response is not 200 and the collection is unchanged; or the
    caller's session now ends with the input as the driver casts it and a
    reply, with [lastUpdated] refreshed, and the response is 200 with that
    very reply, except that it is 500 with the error's text when the
    session had no messages and the title cannot be derived from the input,
    which never happens for a string, whose stored content is the string
    itself. *)
Theorem relay_stores_what_it_answers (env : Env)
  (sessionId userId apiKey : str) (input : JsValue) (w : World) :
  truthy (GEMINI_API_KEY env) = Some apiKey ->
  exists resp w',
    relay_value ObjectId_isValid castObjectId env sessionId userId input w =
    (Ret resp, w') /\
    ((code resp <> 200%Z /\ db w' = db w) \/
     exists id s s' content_ reply,
       castObjectId sessionId = inr id /\
       lookup id (db w) = Some s /\ owner s = userId /\
       js_cast input = inr content_ /\
       lookup id (db w') = Some s' /\
       messages s' = messages s ++ exchange content_ reply /\
       lastUpdated s' = now env /\
       (resp = json 200 (BReply reply) \/
        exists e, resp = json 500 (BError (String_of e)) /\
                  messages s = [] /\ js_title input = inl e) /\
       forall text, input = JsString text ->
                    content_ = text /\ resp = json 200 (BReply reply)).
Proof.
  intros Hk.
  destruct (relay_value_outcome ObjectId_isValid castObjectId env sessionId
              userId input w) as (out & d' & t' & E & C).
  destruct C as [resp Hcode|text Hn _|e Hn _
                |id s k content_ reply Hc Hl Ho _ Hcast
                |id s k content_ reply title_ Hc Hl Ho _ Hcast Hm Ht
                |id s k content_ reply e Hc Hl Ho _ Hcast Hm Ht];
    try congruence.
  - do 2 eexists. split; [exact E|]. left. split; [exact Hcode|reflexivity].
  - do 2 eexists. split; [exact E|]. right. cbn [db]. unfold pushed.
    exists id, s. eexists. exists content_, reply.
    rewrite (@lookup_update_first_hit id
               (apply_update (PushMessages (exchange content_ reply)
                                           (now env)))
               (db w) s (apply_update_id _ s) Hl).
    repeat (split; [first [assumption | reflexivity]|]).
    split; [left; reflexivity|].
    intros text ->. cbn [JsString js_cast] in Hcast.
    split; [congruence | reflexivity].
  - do 2 eexists. split; [exact E|]. right. cbn [db]. unfold pushed.
    rewrite update_first_twice by (intros; apply apply_update_id).
    exists id, s. eexists. exists content_, reply.
    rewrite (@lookup_update_first_hit id
               (fun x => apply_update (SetTitle title_)
                           (apply_update
                              (PushMessages (exchange content_ reply)
                                            (now env)) x))
               (db w) s
               (eq_trans (apply_update_id _ _) (apply_update_id _ s)) Hl).
    repeat (split; [first [assumption | reflexivity]|]).
    split; [left; reflexivity|].
    intros text ->. cbn [JsString js_cast] in Hcast.
    split; [congruence | reflexivity].
  - do 2 eexists. split; [exact E|]. right. cbn [db]. unfold pushed.
    exists id, s. eexists. exists content_, reply.
    rewrite (@lookup_update_first_hit id
               (apply_update (PushMessages (exchange content_ reply)
                                           (now env)))
               (db w) s (apply_update_id _ s) Hl).
    repeat (split; [first [assumption | reflexivity]|]).
    split; [right; eauto|].
    intros text ->. cbn [JsString js_title] in Ht. discriminate.
Qed.

End RelayAnswersAndStores.

(** ** Share tokens issued one after the other *)




Section ShareTokens.

Variable castObjectId : str -> Exn + N.


End ShareTokens.

(** ** The amended statements on concrete requests *)


(** A token drawn for one session that another, earlier stored session
    already carries resolves to that other session. *)
Lemma share_token_collision_resolves_elsewhere :
  exists w1 s1,
    issueShareToken cast24 DemoStore.same_draw (lit "http")
                    (lit "localhost:5000") Demo.sid Demo.alice
                    {| db := [DemoStore.older; Demo.fresh_session];
                       trace := [] |} =
      (Ret (json 200 (BShare Demo.token1
                        (Demo.base ++ lit "/share/" ++ Demo.token1))), w1) /\
    lookup Demo.oid (db w1) = Some s1 /\ shareToken s1 = Some Demo.token1 /\
    fst (getByShareToken Demo.token1 w1) =
      Ret (json 200 (BSession DemoStore.older)).
Proof.
  do 2 eexists. split; [vm_compute; reflexivity|].
  split; [vm_compute; reflexivity|]. split; vm_compute; reflexivity.
Qed.



(** The relay of the number 12345 to a new session, the provider answering
    "Hi": the exchange is stored with the number's text as the user's
    content, and the response is 500, the title derivation having thrown. *)
Example number_relay_stored_then_fails :
  DemoStore.answered [DemoStore.create_first]
    (DemoStore.say Demo.answering DemoStore.number_12345) =
    Ret (json 500
           (BError (lit "TypeError: input.slice is not a function"))) /\
  DemoStore.histories
    [DemoStore.create_first;
     DemoStore.say Demo.answering DemoStore.number_12345] =
    [exchange (lit "12345") (lit "Hi")].
Proof. split; vm_compute; reflexivity. Qed.


Lemma relay_stores_what_it_answers_witness :
  exists resp w',
    relay_value isValid24 cast24 Demo.answering Demo.sid Demo.alice
                DemoStore.number_12345 Demo.w1 = (Ret resp, w') /\
    ((code resp <> 200%Z /\ db w' = db Demo.w1) \/
     exists id s s' content_ reply,
       cast24 Demo.sid = inr id /\
       lookup id (db Demo.w1) = Some s /\ owner s = Demo.alice /\
       js_cast DemoStore.number_12345 = inr content_ /\
       lookup id (db w') = Some s' /\
       messages s' = messages s ++ exchange content_ reply /\
       lastUpdated s' = now Demo.answering /\
       (resp = json 200 (BReply reply) \/
        exists e, resp = json 500 (BError (String_of e)) /\
                  messages s = [] /\
                  js_title DemoStore.number_12345 = inl e) /\
       forall text, DemoStore.number_12345 = JsString text ->
                    content_ = text /\ resp = json 200 (BReply reply)).
Proof.
  apply (@relay_stores_what_it_answers isValid24 cast24 Demo.answering
           Demo.sid Demo.alice (lit "key") DemoStore.number_12345 Demo.w1).
  reflexivity.
Defined.

Section RelayMissingInput.

Variable ObjectId_isValid : str -> bool.
Variable castObjectId : str -> Exn + N.

(** X24: a relay whose [input] is falsy, whatever JSON value it is (absent,
    null, false, 0 or the empty string), is answered 400 'Missing input'
    before anything else happens, whatever the session identifier and the
    configuration: the collection and the record of calls are as before. *)
Theorem relay_falsy_input (env : Env) (sessionId userId : str)
  (input : JsValue) (w : World) :
  js_truthy input = false ->
  relay_value ObjectId_isValid castObjectId env sessionId userId input w =
  (Ret (json 400 (BError (lit "Missing input"))), w).
Proof. intros H. unfold relay_value. rewrite H. reflexivity. Qed.

End RelayMissingInput.

Lemma relay_falsy_input_witness :
  relay_value isValid24 cast24 Demo.answering Demo.sid Demo.alice JsNothing
              Demo.w1 =
  (Ret (json 400 (BError (lit "Missing input"))), Demo.w1).
Proof.
  apply (@relay_falsy_input isValid24 cast24 Demo.answering Demo.sid
           Demo.alice JsNothing Demo.w1).
  reflexivity.
Defined.
